(** * The search endpoint of the epstein repository, and its ingestion pipeline

    The first part embeds [api/src/functions/search.ts] (the Azure Functions
    handler of [GET /api/search]) together with the [clampK] of the frontend
    ([frontend/src/App.tsx]) and the response types of [frontend/src/types.ts].
    The JavaScript built-ins the handler calls ([String.prototype.trim],
    [Number], [Number.isFinite], [Math.floor], [Math.min], [Math.max],
    [URLSearchParams.get], the [||] and [!] operators) are modelled in
    [Module JS], after ECMA-262.

    The second part, [Module Pipeline], is the build path of the Python
    package (link discovery, download with a manifest, text extraction,
    chunking, indexing), after the specification, with the idempotence of a
    run; [Module QueryEngine] is its query path, which the handler is to
    call where it has a stub. *)

From Stdlib Require Import ZArith List String Ascii Bool Lia.
From Stdlib Require Import Floats.SpecFloat.
From stdpp Require Import base gmap list strings.
Import ListNotations.

Local Open Scope Z_scope.

(* ===================================================================== *)
(** ** JavaScript values and built-ins *)
(* ===================================================================== *)

Module JS.

(** A JavaScript string is a sequence of UTF-16 code units. *)
Definition jsstring := list Z.

(** The code units of an ASCII literal of the source. *)
Definition str (s : string) : jsstring :=
  map (fun a => Z.of_N (N_of_ascii a)) (list_ascii_of_string s).

(** A Number is an IEEE 754 binary64 value: a signed zero, a signed
    infinity, NaN, or [S754_finite s m e], which denotes [(-1)^s * m * 2^e].
    The comparisons, [Math.floor], [Math.min] and [Math.max] below are exact
    on the value denoted, whatever [m] and [e]; rounding to 53 bits happens
    where the language rounds, in [Number(string)]. *)
Definition number := spec_float.

Definition prec : Z := 53.
Definition emax : Z := 1024.

Definition NaN : number := S754_nan.

(** The Number of an integer literal of the source (1, 8, 25, ...). *)
Definition of_Z (z : Z) : number :=
  match z with
  | Z0 => S754_zero false
  | Zpos p => S754_finite false p 0
  | Zneg p => S754_finite true p 0
  end.

Definition signed (s : bool) (m : positive) : Z :=
  if s then Zneg m else Zpos m.

Definition isNaN (x : number) : bool :=
  match x with S754_nan => true | _ => false end.

(** [Number.isFinite]: neither NaN nor an infinity. *)
Definition isFinite (x : number) : bool :=
  match x with
  | S754_zero _ | S754_finite _ _ _ => true
  | S754_infinity _ | S754_nan => false
  end.

(** Exact order of [m1 * 2^e1] and [m2 * 2^e2]: both are brought to the
    smaller exponent and compared as integers. *)
Definition cmp_dyadic (m1 e1 m2 e2 : Z) : comparison :=
  let e := Z.min e1 e2 in
  Z.compare (m1 * 2 ^ (e1 - e)) (m2 * 2 ^ (e2 - e)).

(** The comparison of two Numbers, [None] when one of them is NaN; the two
    zeros compare equal. *)
Definition compare (x y : number) : option comparison :=
  match x, y with
  | S754_nan, _ | _, S754_nan => None
  | S754_infinity s1, S754_infinity s2 =>
      Some (if s1 then (if s2 then Eq else Lt) else (if s2 then Gt else Eq))
  | S754_infinity s, _ => Some (if s then Lt else Gt)
  | _, S754_infinity s => Some (if s then Gt else Lt)
  | S754_zero _, S754_zero _ => Some Eq
  | S754_zero _, S754_finite s m e => Some (cmp_dyadic 0 0 (signed s m) e)
  | S754_finite s m e, S754_zero _ => Some (cmp_dyadic (signed s m) e 0 0)
  | S754_finite s1 m1 e1, S754_finite s2 m2 e2 =>
      Some (cmp_dyadic (signed s1 m1) e1 (signed s2 m2) e2)
  end.

(** [x < y] and [x <= y] of the language: false as soon as one side is NaN. *)
Definition lt (x y : number) : bool :=
  match compare x y with Some Lt => true | _ => false end.

Definition le (x y : number) : bool :=
  match compare x y with Some Lt | Some Eq => true | _ => false end.

(** The integer part, rounded down, of the finite value [(-1)^s * m * 2^e]:
    a shift to the left by [e], which for a negative [e] is the shift to the
    right that rounds towards minus infinity. *)
Definition floorZ (s : bool) (m : positive) (e : Z) : Z :=
  Z.shiftl (signed s m) e.

(** [Math.floor]: NaN, the infinities and the zeros are returned as they
    are; the floor of a finite value is an integer, which is a Number. *)
Definition Math_floor (x : number) : number :=
  match x with
  | S754_finite s m e => of_Z (floorZ s m e)
  | _ => x
  end.

(** [Math.min(a, b)] and [Math.max(a, b)] (ECMA-262 21.3.2.25 and 21.3.2.24,
    for two arguments): NaN if either is NaN, -0 counts as smaller than
    +0. *)
Definition Math_min (a b : number) : number :=
  if isNaN a || isNaN b then NaN
  else match a, b with
       | S754_zero false, S754_zero true => b
       | _, _ => if lt b a then b else a
       end.

Definition Math_max (a b : number) : number :=
  if isNaN a || isNaN b then NaN
  else match a, b with
       | S754_zero true, S754_zero false => b
       | _, _ => if lt a b then b else a
       end.

(** *** Strings *)

(** WhiteSpace and LineTerminator code points (ECMA-262 12.2, 12.3): TAB, LF,
    VT, FF, CR, SP, NBSP, the other space separators of Unicode, LS, PS and
    ZWNBSP. *)
Definition is_white_space (c : Z) : bool :=
  (c =? 9) || (c =? 10) || (c =? 11) || (c =? 12) || (c =? 13) || (c =? 32)
  || (c =? 160) || (c =? 5760) || ((8192 <=? c) && (c <=? 8202))
  || (c =? 8232) || (c =? 8233) || (c =? 8239) || (c =? 8287)
  || (c =? 12288) || (c =? 65279).

Fixpoint trimStart (s : jsstring) : jsstring :=
  match s with
  | c :: t => if is_white_space c then trimStart t else s
  | [] => []
  end.

Definition trimEnd (s : jsstring) : jsstring := rev (trimStart (rev s)).

(** [String.prototype.trim] on a string. *)
Definition trim (s : jsstring) : jsstring := trimEnd (trimStart s).

Definition jsstring_eqb (a b : jsstring) : bool :=
  bool_decide (a = b).

(** *** Number(string): StringToNumber (ECMA-262 7.1.4.1.1) *)

Definition digit_val (c : Z) : option Z :=
  if (48 <=? c) && (c <=? 57) then Some (c - 48) else None.

Definition hex_val (c : Z) : option Z :=
  if (48 <=? c) && (c <=? 57) then Some (c - 48)
  else if (97 <=? c) && (c <=? 102) then Some (c - 87)
  else if (65 <=? c) && (c <=? 70) then Some (c - 55)
  else None.

(** The value of a string made only of digits below [radix]. *)
Fixpoint radix_digits (radix : Z) (acc : Z) (s : jsstring) : option Z :=
  match s with
  | [] => Some acc
  | c :: t =>
      match hex_val c with
      | Some d => if d <? radix then radix_digits radix (radix * acc + d) t
                  else None
      | None => None
      end
  end.

(** The longest prefix of decimal digits: its value on top of [acc], the
    number of digits read, and the rest of the string. *)
Fixpoint take_digits (acc : Z) (n : Z) (s : jsstring) : Z * Z * jsstring :=
  match s with
  | c :: t =>
      match digit_val c with
      | Some d => take_digits (10 * acc + d) (n + 1) t
      | None => (acc, n, s)
      end
  | [] => (acc, n, [])
  end.

(** The binary64 value nearest to [(-1)^s * n / d] (ties to even), infinite
    on overflow; [n] and [d] are positive. One correctly rounded division
    of the two integers. *)
Definition round_ratio (s : bool) (n d : Z) : number :=
  match n, d with
  | Zpos pn, Zpos pd =>
      SFdiv prec emax (S754_finite s pn 0) (S754_finite false pd 0)
  | _, _ => S754_zero s
  end.

(** The Number of [(-1)^s * mant * 10^e10]. *)
Definition of_decimal (s : bool) (mant e10 : Z) : number :=
  if 0 <=? e10 then round_ratio s (mant * 10 ^ e10) 1
  else round_ratio s mant (10 ^ (- e10)).

(** ExponentPart, or nothing, up to the end of the string. *)
Definition parse_exponent (s : jsstring) : option Z :=
  match s with
  | [] => Some 0
  | c :: t =>
      if (c =? 101) || (c =? 69) then
        let '(neg, ds) :=
          match t with
          | 43 :: r => (false, r)
          | 45 :: r => (true, r)
          | _ => (false, t)
          end in
        match take_digits 0 0 ds with
        | (v, n, []) => if 0 <? n then Some (if neg then - v else v) else None
        | _ => None
        end
      else None
  end.

(** StrUnsignedDecimalLiteral. *)
Definition parse_unsigned_decimal (s : bool) (t : jsstring) : number :=
  if jsstring_eqb t (str "Infinity") then S754_infinity s
  else
    let '(i, ni, r1) := take_digits 0 0 t in
    let '(mant, nf, r2) :=
      match r1 with
      | 46 :: r => take_digits i 0 r
      | _ => (i, 0, r1)
      end in
    if 0 <? ni + nf then
      match parse_exponent r2 with
      | Some e => of_decimal s mant (e - nf)
      | None => NaN
      end
    else NaN.

(** StrNumericLiteral: a signed decimal literal, or an unsigned hexadecimal,
    octal or binary integer literal. *)
Definition parse_numeric (t : jsstring) : number :=
  let prefixed (radix : Z) (ds : jsstring) : number :=
    match ds with
    | [] => NaN
    | _ => match radix_digits radix 0 ds with
           | Some v => round_ratio false v 1
           | None => NaN
           end
    end in
  match t with
  | 48 :: 120 :: ds | 48 :: 88 :: ds => prefixed 16 ds
  | 48 :: 111 :: ds | 48 :: 79 :: ds => prefixed 8 ds
  | 48 :: 98 :: ds | 48 :: 66 :: ds => prefixed 2 ds
  | 43 :: r => parse_unsigned_decimal false r
  | 45 :: r => parse_unsigned_decimal true r
  | _ => parse_unsigned_decimal false t
  end.

(** StringToNumber: surrounding white space is dropped, the empty string is
    +0, anything that is not a numeric literal is NaN. *)
Definition StringToNumber (s : jsstring) : number :=
  match trim s with
  | [] => S754_zero false
  | t => parse_numeric t
  end.

(** *** Values, truthiness, exceptions *)

(** The values the handler handles at run time: [null] (what
    [URLSearchParams.get] gives for an absent name), strings and Numbers. *)
Inductive value :=
| VNull
| VString (s : jsstring)
| VNumber (n : number).

(** ToBoolean. *)
Definition truthy (v : value) : bool :=
  match v with
  | VNull => false
  | VString [] => false
  | VString (_ :: _) => true
  | VNumber (S754_zero _) | VNumber S754_nan => false
  | VNumber _ => true
  end.

(** [a || b]. *)
Definition or (a b : value) : value := if truthy a then a else b.

(** [Number(v)]. *)
Definition Number (v : value) : number :=
  match v with
  | VNull => S754_zero false
  | VString s => StringToNumber s
  | VNumber n => n
  end.

Inductive exn :=
| TypeError (msg : string).

(** The completion of an evaluation: a value, or a thrown exception. For an
    [async] function, a fulfilled or a rejected promise. *)
Inductive completion (A : Type) :=
| Normal (a : A)
| Throw (e : exn).
Arguments Normal {A} a.
Arguments Throw {A} e.

#[global] Instance completion_ret : MRet completion := fun A a => Normal a.

#[global] Instance completion_bind : MBind completion := fun A B f c =>
  match c with
  | Normal a => f a
  | Throw e => Throw e
  end.

(** [v.trim()]: a property read on [null] throws, a Number has no [trim]. *)
Definition trim_method (v : value) : completion value :=
  match v with
  | VString s => Normal (VString (trim s))
  | VNull => Throw (TypeError "Cannot read properties of null (reading 'trim')")
  | VNumber _ => Throw (TypeError "trim is not a function")
  end.

(** [URLSearchParams]: the name-value pairs of the query string, in order;
    [get] returns the first value of the name, or [null]. *)
Definition URLSearchParams := list (jsstring * jsstring).

Fixpoint get (params : URLSearchParams) (name : jsstring) : value :=
  match params with
  | [] => VNull
  | (n, v) :: rest => if jsstring_eqb n name then VString v else get rest name
  end.

(** A JSON body: what an object literal of strings, Numbers, arrays and
    nested objects denotes; the properties keep their order. *)
#[warnings="-register-all"]
Inductive json :=
| JNull
| JString (s : jsstring)
| JNumber (n : number)
| JArray (items : list json)
| JObject (props : list (string * json)).

Definition to_json (v : value) : json :=
  match v with
  | VNull => JNull
  | VString s => JString s
  | VNumber n => JNumber n
  end.

End JS.


Import JS.

(* ===================================================================== *)
(** ** frontend/src/types.ts and frontend/src/App.tsx *)
(* ===================================================================== *)

Module Frontend.

(** [function clampK(k: number): number] of App.tsx. *)
Definition clampK (k : number) : number :=
  if negb (isFinite k) then of_Z 8
  else Math_max (of_Z 1) (Math_min (of_Z 25) (Math_floor k)).

(** The property [name] of a JSON object, when it has one. *)
Fixpoint prop (name : string) (props : list (string * json)) : option json :=
  match props with
  | [] => None
  | (n, v) :: rest => if String.eqb n name then Some v else prop name rest
  end.

Definition is_string (j : json) : bool :=
  match j with JString _ => true | _ => false end.

Definition is_number (j : json) : bool :=
  match j with JNumber _ => true | _ => false end.

(** An optional property [name?: T]: absent, or of type [T]. *)
Definition optional (ty : json -> bool) (name : string)
    (props : list (string * json)) : bool :=
  match prop name props with
  | None => true
  | Some v => ty v
  end.

(** A required property [name: T]. *)
Definition required (ty : json -> bool) (name : string)
    (props : list (string * json)) : bool :=
  match prop name props with
  | None => false
  | Some v => ty v
  end.

(** The [meta] of [type SearchResult]: source document ([source_pdf],
    [source_text]), chunk ordinal ([chunk_index]) and sibling chunk count
    ([chunk_count]), each of them optional. *)
Definition is_meta (j : json) : bool :=
  match j with
  | JObject props =>
      optional is_string "source_pdf" props
      && optional is_string "source_text" props
      && optional is_number "chunk_index" props
      && optional is_number "chunk_count" props
  | _ => false
  end.

(** [type SearchResult] of types.ts. *)
Definition is_SearchResult (j : json) : bool :=
  match j with
  | JObject props =>
      required is_string "id" props
      && required is_number "distance" props
      && required is_string "text" props
      && required is_meta "meta" props
  | _ => false
  end.

End Frontend.

(* ===================================================================== *)
(** ** api/src/functions/search.ts *)
(* ===================================================================== *)

Module Api.

(** [HttpRequest] of @azure/functions, as far as the handler reads it. *)
Record HttpRequest := { query : URLSearchParams }.

(** [InvocationContext]: the handler ignores it. *)
Record InvocationContext := { invocationId : jsstring }.

(** [HttpResponseInit]. *)
Record HttpResponseInit := { status : Z; jsonBody : json }.

(** [function clampK(k: number): number] of search.ts. *)
Definition clampK (k : number) : number :=
  if negb (isFinite k) then of_Z 8
  else Math_max (of_Z 1) (Math_min (of_Z 25) (Math_floor k)).

(** [const q = (request.query.get("q") || "").trim();] *)
Definition read_q (request : HttpRequest) : completion value :=
  trim_method (or (get (query request) (str "q")) (VString (str ""))).

(** [const k = clampK(Number(request.query.get("k") || "8"));] *)
Definition read_k (request : HttpRequest) : number :=
  clampK (Number (or (get (query request) (str "k")) (VString (str "8")))).

(** [export async function search(request, _context)]. The promise it
    returns is fulfilled with the response, or rejected with what the body
    throws. *)
Definition search (request : HttpRequest) (_context : InvocationContext)
    : completion HttpResponseInit :=
  q ← read_q request;
  let k := read_k request in
  if negb (truthy q) then
    mret {| status := 400;
            jsonBody := JObject
              [("error"%string, JString (str "Missing required query param: q"))] |}
  else
    mret {| status := 200;
            jsonBody := JObject
              [("q"%string, to_json q); ("k"%string, JNumber k);
               ("results"%string, JArray [])] |}.

End Api.

(* ===================================================================== *)
(** ** The ingestion pipeline

    The build path of the Python package [epstein] (the commands
    [download] and [ingest] of the README), after sections 3 to 5 of the
    specification. *)
(* ===================================================================== *)

Module Pipeline.

Local Open Scope nat_scope.

(** Modelled from the spec: URLs, paths of the stores, timestamps, content
    hashes and embedding vectors (section 3); the Python package that
    declares them is missing. *)
Definition url := string.
Definition path := string.
Definition time := nat.
Definition hash := string.
Definition vector := list Z.

(** Modelled from the spec: the status of a DocumentRecord (section 3); the
    download manager of the Python package is missing. *)
Inductive status := pending | downloaded | failed.

(** Modelled from the spec: the extraction method of an ExtractedText
    (section 3); the text extraction engine is missing. *)
Inductive extraction_method := native | ocr.

#[global] Instance status_eq_dec : EqDecision status.
Proof. solve_decision. Defined.

(** Modelled from the spec: DocumentRecord (section 3), one per discovered
    URL, kept in the manifest; the manifest code is missing. *)
Record DocumentRecord := {
  doc_url : url;
  local_path : option path;
  content_hash : option hash;
  doc_status : status;
  failure_reason : option string;
  downloaded_at : option time
}.

(** Modelled from the spec: ExtractedText (section 3); [source_hash] is the
    content hash the text was extracted from, which the "hash match" of
    section 4.3 compares, and [low_confidence] the flag of section 4.3. *)
Record ExtractedText := {
  source_url : url;
  text_path : path;
  method : extraction_method;
  char_count : nat;
  extracted_at : time;
  low_confidence : bool;
  source_hash : hash
}.

(** Modelled from the spec: Chunk (section 3); its [chunk_id] is the source
    URL together with the ordinal. The chunker is missing. *)
Record Chunk := {
  chunk_id : url * nat;
  chunk_source : url;
  ordinal : nat;
  chunk_text : string;
  char_span : nat * nat
}.

(** Modelled from the spec: IndexEntry (section 3): a chunk id, its vector,
    and the metadata (source URL, ordinal, number of chunks of the
    document). The indexer is missing. *)
Record IndexEntry := {
  entry_id : url * nat;
  embedding_vector : vector;
  meta_source : url;
  meta_ordinal : nat;
  meta_total : nat
}.

(** Modelled from the spec: the outcome of one attempt at fetching a
    document (section 7, kinds (a) and (b)). *)
Inductive outcome :=
| Fetched (body : string)
| Transient (reason : string)
| Permanent (reason : string).

(** Modelled from the spec: the external collaborators and the configuration
    of a run (sections 4 and 6): the input pages, the web, the hash, the
    layout of the stores, the two text extractors, the chunking parameters
    and the embedding function. An unchanged input set is one [World]. *)
Class World := {
  pages : list url;
  (** the hyperlinks of a page, resolved against its URL; [None] when the
      page cannot be fetched *)
  fetch_page : url -> option (list url);
  (** the n-th attempt at fetching a document *)
  attempt : url -> nat -> outcome;
  retries : nat;
  digest : string -> hash;
  path_of : url -> path;
  text_path_of : url -> path;
  (** the text layer and the page count of a PDF; [None] when it is corrupt *)
  native_text : string -> option (string * nat);
  ocr_text : string -> option string;
  ocr_enabled : bool;
  ocr_available : bool;
  yield_threshold : nat;
  window : nat;
  overlap : nat;
  min_chars : nat;
  embed : string -> vector
}.

(** Modelled from the spec: the three persisted artifacts (raw files and
    extracted texts on disk, the manifest, the vector index) of sections 1
    and 6. The index is the list of its rows, in insertion order. *)
Record State := {
  manifest : gmap url DocumentRecord;
  raw_store : gmap path string;
  extracted : gmap url ExtractedText;
  text_store : gmap path string;
  index : list IndexEntry
}.

(** Modelled from the spec: the stores before the first run. *)
Definition empty_state : State :=
  {| manifest := ∅; raw_store := ∅; extracted := ∅; text_store := ∅;
     index := [] |}.

Section Stages.

Context `{World}.

(** *** 4.1 Link extractor *)

(** Modelled from the spec: the lower case of a letter, for the
    case-insensitive comparison of section 4.1. *)
Definition lower (a : ascii) : ascii :=
  let n := nat_of_ascii a in
  if (65 <=? n) && (n <=? 90) then ascii_of_nat (n + 32) else a.

(** Modelled from the spec: a URL "ends in a PDF extension
    (case-insensitive)" (section 4.1). *)
Definition ends_with_pdf (u : url) : bool :=
  let n := String.length u in
  bool_decide (map lower (list_ascii_of_string (substring (n - 4) 4 u))
               = list_ascii_of_string ".pdf").

(** Modelled from the spec: the PDF links of one page; a page that cannot
    be fetched is skipped (section 4.1). *)
Definition extract_links (page : url) : list url :=
  match fetch_page page with
  | Some links => List.filter ends_with_pdf links
  | None => []
  end.

(** Modelled from the spec: the discovered set, duplicates across pages
    collapsed (section 4.1). *)
Definition discover : list url :=
  remove_dups (concat (map extract_links pages)).

(** *** 4.2 Download manager *)

(** Modelled from the spec: a fetch with a bounded number of retries on
    transient failures; a permanent error is not retried (section 4.2). The
    result is the body, or the reason of the failure. *)
Fixpoint fetch_with_retries (u : url) (n : nat) (left : nat) : string + string :=
  match attempt u n with
  | Fetched body => inr body
  | Permanent reason => inl reason
  | Transient reason =>
      match left with
      | 0 => inl reason
      | S left' => fetch_with_retries u (S n) left'
      end
  end.

(** Modelled from the spec: the fetch of one document, from its first
    attempt (section 4.2). *)
Definition fetch_document (u : url) : string + string :=
  fetch_with_retries u 0 retries.

(** Modelled from the spec: the record of a URL when it is first
    discovered (section 3). *)
Definition new_record (u : url) : DocumentRecord :=
  {| doc_url := u; local_path := None; content_hash := None;
     doc_status := pending; failure_reason := None; downloaded_at := None |}.

(** Modelled from the spec: the record of a failed fetch, with its reason
    (section 4.2). *)
Definition mark_failed (r : DocumentRecord) (reason : string) : DocumentRecord :=
  {| doc_url := doc_url r; local_path := local_path r;
     content_hash := content_hash r; doc_status := failed;
     failure_reason := Some reason; downloaded_at := downloaded_at r |}.

(** Modelled from the spec: the record of a successful fetch: local path,
    content hash and time of the download (section 4.2). *)
Definition mark_downloaded (r : DocumentRecord) (p : path) (h : hash) (now : time)
    : DocumentRecord :=
  {| doc_url := doc_url r; local_path := Some p; content_hash := Some h;
     doc_status := downloaded; failure_reason := None;
     downloaded_at := Some now |}.

(** Modelled from the spec: the download manager on one URL (section 4.2).
    A URL already downloaded is skipped; otherwise the document is fetched,
    a failure marks the record failed with its reason, a success writes the
    bytes at the path of the URL and marks the record downloaded. *)
Definition download_one (now : time) (s : State) (u : url) : State :=
  let r := default (new_record u) (manifest s !! u) in
  match doc_status r with
  | downloaded => s
  | _ =>
      match fetch_document u with
      | inl reason =>
          {| manifest := <[u := mark_failed r reason]> (manifest s);
             raw_store := raw_store s; extracted := extracted s;
             text_store := text_store s; index := index s |}
      | inr body =>
          {| manifest :=
               <[u := mark_downloaded r (path_of u) (digest body) now]>
                 (manifest s);
             raw_store := <[path_of u := body]> (raw_store s);
             extracted := extracted s;
             text_store := text_store s; index := index s |}
      end
  end.

(** *** 4.3 Text extraction engine *)

(** Modelled from the spec: the work is skipped when an ExtractedText
    exists for the document and its source hash matches (section 4.3). *)
Definition needs_extraction (s : State) (u : url) (h : hash) : bool :=
  match extracted s !! u with
  | Some et => negb (bool_decide (source_hash et = h))
  | None => true
  end.

(** Modelled from the spec: native extraction first; when the yield
    (characters per page) is below the threshold and OCR is enabled and
    available, OCR; otherwise the native text is kept, flagged when its
    yield is low. [None] is an extraction failure (section 4.3). *)
Definition extract_text (body : string)
    : option (string * extraction_method * bool) :=
  match native_text body with
  | None => None
  | Some (txt, npages) =>
      let low := String.length txt / npages <? yield_threshold in
      if low && ocr_enabled && ocr_available then
        match ocr_text body with
        | Some txt' => Some (txt', ocr, false)
        | None => None
        end
      else Some (txt, native, low)
  end.

(** *** 4.4 Chunker *)

(** Modelled from the spec: the distance between the starts of two
    consecutive windows (section 4.4). *)
Definition stride : nat := window - overlap.

(** Modelled from the spec: the number of windows over a text of [len]
    characters; none for an empty or near-empty text (section 4.4). *)
Definition chunk_count (len : nat) : nat :=
  if len <=? min_chars then 0
  else if len <=? window then 1
  else S ((len - window + stride - 1) / stride).

(** Modelled from the spec: overlapping windows of a fixed length at a
    fixed stride, the chunk id made of the source URL and the ordinal
    (section 4.4). *)
Definition chunk (u : url) (txt : string) : list Chunk :=
  let len := String.length txt in
  map (fun i =>
         let start := i * stride in
         let stop := Nat.min len (start + window) in
         {| chunk_id := (u, i); chunk_source := u; ordinal := i;
            chunk_text := substring start (stop - start) txt;
            char_span := (start, stop) |})
      (seq 0 (chunk_count len)).

(** *** 4.5 Embedding indexer *)

(** Modelled from the spec: the row of a chunk: its id, its embedding and
    the provenance metadata (section 4.5). *)
Definition entry_of (total : nat) (c : Chunk) : IndexEntry :=
  {| entry_id := chunk_id c; embedding_vector := embed (chunk_text c);
     meta_source := chunk_source c; meta_ordinal := ordinal c;
     meta_total := total |}.

(** Modelled from the spec: for a new or changed document, the rows of its
    source URL are removed, then one row per chunk is inserted
    (section 4.5). *)
Definition reindex (u : url) (txt : string) (rows : list IndexEntry)
    : list IndexEntry :=
  let cs := chunk u txt in
  filter (fun e => meta_source e <> u) rows
  ++ map (entry_of (length cs)) cs.

(** Modelled from the spec: extraction, chunking and indexing of one
    document of the manifest (sections 4.3 to 4.5). Nothing is done for a
    document that is not downloaded, or whose text is up to date; a missing
    or corrupt file is a failure of this document only and leaves the
    stores as they are. *)
Definition ingest_one (now : time) (s : State) (u : url) : State :=
  match manifest s !! u with
  | Some r =>
      match doc_status r, content_hash r, local_path r with
      | downloaded, Some h, Some p =>
          if needs_extraction s u h then
            match raw_store s !! p with
            | Some body =>
                match extract_text body with
                | Some (txt, m, low) =>
                    {| manifest := manifest s; raw_store := raw_store s;
                       extracted :=
                         <[u := {| source_url := u;
                                   text_path := text_path_of u;
                                   method := m;
                                   char_count := String.length txt;
                                   extracted_at := now;
                                   low_confidence := low;
                                   source_hash := h |}]> (extracted s);
                       text_store := <[text_path_of u := txt]> (text_store s);
                       index := reindex u txt (index s) |}
                | None => s
                end
            | None => s
            end
          else s
      | _, _, _ => s
      end
  | None => s
  end.

(** Modelled from the spec: the documents of the manifest, "the join key
    between raw files and extraction/indexing state" (section 2). *)
Definition documents (s : State) : list url :=
  (map_to_list (manifest s)).*1.

(** Modelled from the spec: one run of the full pipeline at time [now]
    (section 2): link extraction, download of every discovered URL, then
    extraction, chunking and indexing of every document. *)
Definition run (now : time) (s : State) : State :=
  let s1 := foldl (download_one now) s discover in
  foldl (ingest_one now) s1 (documents s1).

(** Modelled from the spec: any number of runs, one after the other, at
    the given times (section 3, "regardless of how many times it is
    invoked"). *)
Definition runs (times : list time) (s : State) : State :=
  foldl (fun s now => run now s) s times.

End Stages.

(** *** What the idempotence property observes *)

(** Modelled from the spec: the manifest status counts of section 8, the
    number of records of a status. *)
Definition count_status (st : status) (s : State) : nat :=
  length (List.filter (fun kr => bool_decide (doc_status kr.2 = st))
            (map_to_list (manifest s))).

(** Modelled from the spec: the counts of pending, downloaded and failed
    records. *)
Definition status_counts (s : State) : nat * nat * nat :=
  (count_status pending s, count_status downloaded s, count_status failed s).

(** Modelled from the spec: the chunk ids of the rows of the index. *)
Definition chunk_ids (s : State) : list (url * nat) :=
  map entry_id (index s).

(** Modelled from the spec: an index with no duplicate chunk ids, each id
    made of the source URL and the ordinal of the row's metadata
    (sections 3 and 8). *)
Definition index_wf (s : State) : Prop :=
  NoDup (chunk_ids s)
  /\ Forall (fun e => entry_id e = (meta_source e, meta_ordinal e)) (index s).

(** Modelled from the spec: a small world after the scenarios of section 8:
    one page with three PDF links and one other link; the first document is
    fetched at once, the second at the second attempt, the third is
    a 404. *)
Definition demo_world : World :=
  {| pages := ["https://www.justice.gov/epstein"%string];
     fetch_page := fun p =>
       if String.eqb p "https://www.justice.gov/epstein"
       then Some ["https://www.justice.gov/a.pdf"%string;
                  "https://www.justice.gov/b.PDF"%string;
                  "https://www.justice.gov/c.pdf"%string;
                  "https://www.justice.gov/about.html"%string;
                  "https://www.justice.gov/a.pdf"%string]
       else None;
     attempt := fun u n =>
       if String.eqb u "https://www.justice.gov/a.pdf"
       then Fetched "flight logs to palm beach"
       else if String.eqb u "https://www.justice.gov/b.PDF"
       then match n with
            | 0 => Transient "timeout"
            | _ => Fetched "victim statements"
            end
       else Permanent "404";
     retries := 2;
     digest := fun body => body;
     path_of := fun u => u;
     text_path_of := fun u => (u ++ ".txt")%string;
     native_text := fun body => Some (body, 1);
     ocr_text := fun body => Some body;
     ocr_enabled := true;
     ocr_available := false;
     yield_threshold := 5;
     window := 10;
     overlap := 2;
     min_chars := 0;
     embed := fun txt => [Z.of_nat (String.length txt)] |}.

End Pipeline.

(* ===================================================================== *)
(** ** Notions used in the statements *)
(* ===================================================================== *)

(** A request with the given query parameters. *)
Definition request_of (params : list (string * string)) : Api.HttpRequest :=
  {| Api.query := map (fun p => (str p.1, str p.2)) params |}.

Definition ctx : Api.InvocationContext := {| Api.invocationId := [] |}.

(** The integer [Math.floor] returns on a finite Number. *)
Definition floor_int (k : number) : Z :=
  match k with
  | S754_finite s m e => floorZ s m e
  | _ => 0
  end.

(** The raw [q] and [k] parameters of a request. *)
Definition q_param (request : Api.HttpRequest) : value :=
  get (Api.query request) (str "q").

Definition k_param (request : Api.HttpRequest) : value :=
  get (Api.query request) (str "k").

(** The Number the handler passes to [clampK]. *)
Definition k_number (request : Api.HttpRequest) : number :=
  Number (or (k_param request) (VString (str "8"))).

(** The two responses of the handler. *)
Definition bad_request : Api.HttpResponseInit :=
  {| Api.status := 400;
     Api.jsonBody := JObject
       [("error"%string, JString (str "Missing required query param: q"))] |}.

Definition ok_response (q : jsstring) (k : number) (results : list json)
    : Api.HttpResponseInit :=
  {| Api.status := 200;
     Api.jsonBody := JObject
       [("q"%string, JString q); ("k"%string, JNumber k);
        ("results"%string, JArray results)] |}.

(** The [distance] of a result. *)
Definition distance (j : json) : option number :=
  match j with
  | JObject props =>
      match Frontend.prop "distance" props with
      | Some (JNumber d) => Some d
      | _ => None
      end
  | _ => None
  end.

(** Two consecutive results are in order when both have a distance and the
    first one's is not the greater. *)
Definition distance_le (a b : json) : bool :=
  match distance a, distance b with
  | Some da, Some db => le da db
  | _, _ => false
  end.

(** A list of results sorted by non-decreasing distance. *)
Fixpoint sorted_by_distance (rs : list json) : bool :=
  match rs with
  | a :: (b :: _) as rest => distance_le a b && sorted_by_distance rest
  | _ => true
  end.

(** The [k] of a response body, when it has one. *)
Definition body_k (resp : Api.HttpResponseInit) : option json :=
  match Api.jsonBody resp with
  | JObject props => Frontend.prop "k" props
  | _ => None
  end.

(** [k] is present and is not the text of a finite Number. *)
Definition k_not_numeric (request : Api.HttpRequest) : Prop :=
  exists s, k_param request = VString s /\ isFinite (StringToNumber s) = false.

(** The text of [q], empty when the parameter is absent. *)
Definition q_text (request : Api.HttpRequest) : jsstring :=
  match q_param request with
  | VString s => s
  | _ => []
  end.

(** What the handler answers, as a function of the trimmed [q] and of the
    clamped [k]. *)
Definition answer (q : jsstring) (k : number) : Api.HttpResponseInit :=
  match q with
  | [] => bad_request
  | _ :: _ => ok_response q k []
  end.

Section PipelineNotions.

Import Pipeline.

(** A URL is settled when its record is downloaded, or is the failed record
    of a fetch that fails. *)
Definition dl_settled `{Pipeline.World} (u : Pipeline.url) (s : Pipeline.State) : Prop :=
  exists r, manifest s !! u = Some r
    /\ (doc_status r = downloaded
        \/ exists reason, fetch_document u = inl reason
                          /\ mark_failed r reason = r).

(** The text of a document, as an ingestion would extract it now: [None]
    when the document is not downloaded, when its text is up to date, or
    when its file is missing or corrupt. *)
Definition pending_text `{Pipeline.World} (s : Pipeline.State) (u : Pipeline.url)
    : option string :=
  match manifest s !! u with
  | Some r =>
      match doc_status r, content_hash r, local_path r with
      | downloaded, Some h, Some p =>
          if needs_extraction s u h then
            match raw_store s !! p with
            | Some body =>
                match extract_text body with
                | Some (txt, _, _) => Some txt
                | None => None
                end
            | None => None
            end
          else None
      | _, _, _ => None
      end
  | None => None
  end.

End PipelineNotions.

(* ===================================================================== *)
(** ** More built-ins, for frontend/src/App.tsx *)
(* ===================================================================== *)

Module JSLib.

(** What a [throw] carries: an instance of [Error], with its name and its
    message, or any other value, with the string [String(e)] gives. *)
Inductive thrown :=
| ErrorObject (name : string) (message : jsstring)
| OtherValue (text : jsstring).

(** The outcome of an evaluation that may throw. *)
Inductive result (A : Type) :=
| Return (a : A)
| Raise (e : thrown).
Arguments Return {A} a.
Arguments Raise {A} e.

#[global] Instance result_ret : MRet result := fun A a => Return a.

#[global] Instance result_bind : MBind result := fun A B f c =>
  match c with
  | Return a => f a
  | Raise e => Raise e
  end.

(** [e instanceof Error ? e.message : String(e)]. *)
Definition message_of (e : thrown) : jsstring :=
  match e with
  | ErrorObject _ message => message
  | OtherValue text => text
  end.

(** *** Decimal digits *)

(** The decimal digits of [n >= 0] in front of [acc], most significant
    first; [fuel] bounds the number of digits. *)
Fixpoint decimal_fuel (fuel : nat) (n : Z) (acc : jsstring) : jsstring :=
  match fuel with
  | O => acc
  | S fuel' =>
      if n <? 10 then (48 + n) :: acc
      else decimal_fuel fuel' (n / 10) ((48 + n mod 10) :: acc)
  end.

(** The decimal representation of the integer [n >= 0]; a number has no
    more decimal digits than binary ones. *)
Definition decimal (n : Z) : jsstring :=
  decimal_fuel (S (Z.to_nat (Z.log2 n))) n [].

(** *** Number::toString (ECMA-262 6.1.6.1.20) *)

(** The integer a finite Number is, when it is one. *)
Definition integer_value (x : number) : option Z :=
  match x with
  | S754_zero _ => Some 0
  | S754_finite s m e =>
      if 0 <=? e then Some (signed s m * 2 ^ e)
      else if (Zpos m) mod 2 ^ (- e) =? 0 then Some (signed s m / 2 ^ (- e))
      else None
  | _ => None
  end.

(** What this development leaves to the engine. Of Number::toString, the
    shortest decimal that reads back as a finite Number which is not an
    integer of magnitude at most [2^53] (step 5 of the algorithm, and the
    notations of steps 6 to 10). Of a URIError, its message: ECMA-262
    fixes the type of the error and leaves the text to the engine. *)
Class Engine := {
  shortest_decimal : number -> jsstring;
  uri_error_message : jsstring
}.

(** [String(x)] for a Number: "NaN", "0" for both zeros, "Infinity" with
    its sign; an integer up to [2^53] is written with all its digits. *)
Definition ToString `{Engine} (x : number) : jsstring :=
  match x with
  | S754_nan => str "NaN"
  | S754_zero _ => str "0"
  | S754_infinity s => if s then str "-Infinity" else str "Infinity"
  | S754_finite s _ _ =>
      match integer_value x with
      | Some z =>
          if Z.abs z <=? 2 ^ 53
          then (if s then str "-" else []) ++ decimal (Z.abs z)
          else shortest_decimal x
      | None => shortest_decimal x
      end
  end.

(** *** Number.prototype.toFixed (ECMA-262 21.1.3.3) *)

(** The integer [n] for which [n / 10^f - m * 2^e] is as close to zero as
    possible, the larger one when there are two. *)
Definition nearest_scaled (m : positive) (e f : Z) : Z :=
  if 0 <=? e then Zpos m * 2 ^ e * 10 ^ f
  else (2 * (Zpos m * 10 ^ f) + 2 ^ (- e)) / (2 * 2 ^ (- e)).

(** The digits of [n] with a point before the last [f] of them, after
    padding with zeros on the left to [f + 1] digits (step 10). *)
Definition fixed_digits (n f : Z) : jsstring :=
  let m := decimal n in
  if f =? 0 then m
  else
    let k := Z.of_nat (length m) in
    let m' := if k <=? f then repeat 48 (Z.to_nat (f + 1 - k)) ++ m else m in
    let k' := Z.of_nat (length m') in
    take (Z.to_nat (k' - f)) m' ++ 46 :: drop (Z.to_nat (k' - f)) m'.

(** [x.toFixed(f)] for an integer [f]. *)
Definition toFixed `{Engine} (x : number) (f : Z) : result jsstring :=
  if (f <? 0) || (100 <? f) then
    Raise (ErrorObject "RangeError"
             (str "toFixed() digits argument must be between 0 and 100"))
  else
    match x with
    | S754_nan | S754_infinity _ => Return (ToString x)
    | S754_zero _ => Return (fixed_digits 0 f)
    | S754_finite s m e =>
        let sign := if s then str "-" else [] in
        if le (of_Z (10 ^ 21)) (S754_finite false m e)
        then Return (sign ++ ToString (S754_finite false m e))
        else Return (sign ++ fixed_digits (nearest_scaled m e f) f)
    end.

(** *** String.prototype.split, on a separator of one code unit *)

(** The substrings between the occurrences of [sep], those after [cur]
    (the current substring, reversed). *)
Fixpoint split_from (sep : Z) (cur : jsstring) (s : jsstring) : list jsstring :=
  match s with
  | [] => [rev cur]
  | c :: t =>
      if c =? sep then rev cur :: split_from sep [] t
      else split_from sep (c :: cur) t
  end.

Definition split (s : jsstring) (sep : Z) : list jsstring :=
  split_from sep [] s.

(** *** encodeURIComponent (ECMA-262 19.2.6.5, Encode) *)

(** The characters left as they are: ASCII letters and digits, and
    [-_.!~*'()]. *)
Definition unreserved (c : Z) : bool :=
  ((48 <=? c) && (c <=? 57)) || ((65 <=? c) && (c <=? 90))
  || ((97 <=? c) && (c <=? 122))
  || (c =? 45) || (c =? 95) || (c =? 46) || (c =? 33) || (c =? 126)
  || (c =? 42) || (c =? 39) || (c =? 40) || (c =? 41).

Definition is_leading_surrogate (c : Z) : bool :=
  (55296 <=? c) && (c <=? 56319).

Definition is_trailing_surrogate (c : Z) : bool :=
  (56320 <=? c) && (c <=? 57343).

(** UTF16SurrogatePairToCodePoint. *)
Definition pair_code_point (lead trail : Z) : Z :=
  (lead - 55296) * 1024 + (trail - 56320) + 65536.

(** The UTF-8 octets of a code point. *)
Definition utf8 (cp : Z) : list Z :=
  if cp <? 128 then [cp]
  else if cp <? 2048 then [192 + cp / 64; 128 + cp mod 64]
  else if cp <? 65536 then
    [224 + cp / 4096; 128 + (cp / 64) mod 64; 128 + cp mod 64]
  else
    [240 + cp / 262144; 128 + (cp / 4096) mod 64; 128 + (cp / 64) mod 64;
     128 + cp mod 64].

Definition hex_digit (d : Z) : Z := if d <? 10 then 48 + d else 55 + d.

(** ["%XX"] for each octet. *)
Definition escape (octets : list Z) : jsstring :=
  concat (map (fun b => [37; hex_digit (b / 16); hex_digit (b mod 16)]) octets).

(** The URIError of the engine. *)
Definition URIError `{Engine} : thrown :=
  ErrorObject "URIError" uri_error_message.

Fixpoint encodeURIComponent `{Engine} (s : jsstring) : result jsstring :=
  match s with
  | [] => Return []
  | c :: t =>
      if unreserved c then r ← encodeURIComponent t; Return (c :: r)
      else if is_trailing_surrogate c then Raise URIError
      else if is_leading_surrogate c then
        match t with
        | d :: t' =>
            if is_trailing_surrogate d then
              r ← encodeURIComponent t';
              Return (escape (utf8 (pair_code_point c d)) ++ r)
            else Raise URIError
        | [] => Raise URIError
        end
      else r ← encodeURIComponent t; Return (escape (utf8 c) ++ r)
  end.

(** *** Property reads and truthiness on JSON data *)

(** ToBoolean of a value read from JSON data; [None] is [undefined]. *)
Definition jtruthy (v : option json) : bool :=
  match v with
  | None | Some JNull => false
  | Some (JString s) => truthy (VString s)
  | Some (JNumber n) => truthy (VNumber n)
  | Some (JArray _) | Some (JObject _) => true
  end.

(** [a || b]. *)
Definition jor (a b : option json) : option json :=
  if jtruthy a then a else b.

(** [v.name], for the name of a data property: it throws on [null] and
    [undefined], an object has the property or not, and a string, a Number
    or an array has no such property. *)
Definition member (v : option json) (name : string) : result (option json) :=
  match v with
  | None =>
      Raise (ErrorObject "TypeError"
               (str ("Cannot read properties of undefined (reading '"
                     ++ name ++ "')")))
  | Some JNull =>
      Raise (ErrorObject "TypeError"
               (str ("Cannot read properties of null (reading '"
                     ++ name ++ "')")))
  | Some (JObject props) => Return (Frontend.prop name props)
  | Some _ => Return None
  end.

(** [v?.name]. *)
Definition optional_member (v : option json) (name : string) : option json :=
  match v with
  | None | Some JNull => None
  | Some (JObject props) => Frontend.prop name props
  | Some _ => None
  end.

(** [v.split(sep)]: only a string has the method. *)
Definition split_method (v : option json) (sep : Z) : result (list jsstring) :=
  match v with
  | Some (JString s) => Return (split s sep)
  | None =>
      Raise (ErrorObject "TypeError"
               (str "Cannot read properties of undefined (reading 'split')"))
  | Some JNull =>
      Raise (ErrorObject "TypeError"
               (str "Cannot read properties of null (reading 'split')"))
  | Some _ => Raise (ErrorObject "TypeError" (str "s.split is not a function"))
  end.

End JSLib.

Import JSLib.

(* ===================================================================== *)
(** ** frontend/src/App.tsx *)
(* ===================================================================== *)

Module App.

(** [function formatDistance(distance: number): string]. *)
Definition formatDistance `{Engine} (distance : number) : result jsstring :=
  if negb (isFinite distance) then Return (str "")
  else toFixed distance 4.

(** [function getSourceLabel(r: SearchResult): string]. *)
Definition getSourceLabel (r : json) : result jsstring :=
  meta ← member (Some r) "meta";
  s ← (if jtruthy (optional_member meta "source_pdf")
       then Return (optional_member meta "source_pdf")
       else
         meta' ← member (Some r) "meta";
         Return (jor (optional_member meta' "source_text")
                     (Some (JString (str "unknown")))));
  parts ← split_method s 47;
  match last parts, s with
  | Some ((_ :: _) as part), _ => Return part
  | _, Some (JString whole) => Return whole
  | _, _ => Return []
  end.

(** The state of the component: [q], [k], [loading], [error], [results]. *)
Record State := {
  q : jsstring;
  k : number;
  loading : bool;
  error : jsstring;
  results : json
}.

(** [const canSearch = useMemo(() => q.trim().length > 0 && !loading, ...)]. *)
Definition canSearch (st : State) : bool :=
  (0 <? Z.of_nat (length (trim (q st)))) && negb (loading st).

(** A [Response] of [fetch]: [ok], [status], [statusText], and what the
    promises of [text()] and [json()] settle to. *)
Record Response := {
  ok : bool;
  status : Z;
  statusText : jsstring;
  text : result jsstring;
  json : result JS.json
}.

(** The network: what the promise of [fetch(url, { method: "GET" })]
    settles to. *)
Class Network := { fetch : jsstring -> result Response }.

(** The URL of the request: the template literal of [onSearch]. *)
Definition search_url `{Engine} (qq : jsstring) (kk : number) : result jsstring :=
  eq ← encodeURIComponent qq;
  ek ← encodeURIComponent (ToString kk);
  Return (str "/api/search?q=" ++ eq ++ str "&k=" ++ ek).

(** The [try] block of [onSearch]: the value passed to [setResults], or
    what is thrown; with the URLs fetched. *)
Definition request_results `{Engine} `{Network} (qq : jsstring) (k : number)
    : result JS.json * list jsstring :=
  let kk := Frontend.clampK k in
  match search_url qq kk with
  | Raise e => (Raise e, [])
  | Return url =>
      (r ← fetch url;
       if negb (ok r) then
         let txt := match text r with Return t => t | Raise _ => str "" end in
         Raise (ErrorObject "Error"
                  (str "API error (" ++ ToString (of_Z (status r)) ++ str "): "
                   ++ match txt with [] => statusText r | _ :: _ => txt end))
       else
         data ← json r;
         res ← member (Some data) "results";
         Return (match jor res (Some (JArray [])) with
                 | Some v => v
                 | None => JArray []
                 end),
       [url])
  end.

(** [async function onSearch()]: the state once the promise has settled,
    and the URLs fetched. *)
Definition onSearch `{Engine} `{Network} (st : State) : State * list jsstring :=
  let qq := trim (q st) in
  match qq with
  | [] => (st, [])
  | _ :: _ =>
      match request_results qq (k st) with
      | (Return rs, urls) =>
          ({| q := q st; k := k st; loading := false; error := str "";
              results := rs |}, urls)
      | (Raise e, urls) =>
          ({| q := q st; k := k st; loading := false;
              error := message_of e; results := JArray [] |}, urls)
      end
  end.

(** The [k] input: [onChange={(e) => setK(Number(e.target.value))}] and
    [value={String(k)}]. *)
Definition onChangeK (text : jsstring) (st : State) : State :=
  {| q := q st; k := Number (VString text); loading := loading st;
     error := error st; results := results st |}.

Definition kValue `{Engine} (st : State) : jsstring := ToString (k st).

(** The state of the first render: [useState("")], [useState(8)],
    [useState(false)], [useState("")], [useState([])]. *)
Definition initial : State :=
  {| q := str ""; k := of_Z 8; loading := false; error := str "";
     results := JArray [] |}.

End App.

(** An engine for the examples: its decimal text is never reached on the
    Numbers of the examples, and its URIError has the message V8 gives. *)
Definition demo_engine : Engine :=
  {| shortest_decimal := fun _ => str "?";
     uri_error_message := str "URI malformed" |}.

(* ===================================================================== *)
(** ** The query path

    The Query Engine of the Python package [epstein], after sections 4.6
    and 6 of the specification. The endpoint of search.ts has a stub where
    it is to ask an index. *)
(* ===================================================================== *)

Module QueryEngine.

Import Pipeline.

(** Modelled from the spec: the configuration of the Query Engine, which
    is missing with the rest of the Python package: the vector distance it
    ranks by (section 1), a Number that is never NaN, and the message of
    the client error for an empty query (section 7, kind (f)). *)
Class Ranking := {
  metric : vector -> vector -> number;
  metric_number : forall u v, isNaN (metric u v) = false;
  empty_query : string
}.

(** Modelled from the spec: what a query is answered with (section 6): the
    response, or a client error with its message. *)
Inductive reply :=
| Response (body : json)
| ClientError (message : string).

Section Query.

Context `{World} `{Ranking}.

(** Modelled from the spec: [k] "clamped to a sane range (e.g., 1..25)",
    a value outside the range corrected (sections 4.6 and 6). *)
Definition clamp_k (k : Z) : Z := Z.max 1 (Z.min 25 k).

(** Modelled from the spec: the distance of a row to the query, which is
    embedded with the embedding function of the index (section 4.6). *)
Definition distance_to (q : string) (e : IndexEntry) : number :=
  metric (embed q) (embedding_vector e).

(** Modelled from the spec: a row put in its place among rows in ascending
    order of distance, behind the rows at the same distance: "ties broken
    by insertion order" (section 4.6). *)
Fixpoint place (q : string) (e : IndexEntry) (rows : list IndexEntry)
    : list IndexEntry :=
  match rows with
  | [] => [e]
  | x :: rest =>
      if lt (distance_to q e) (distance_to q x) then e :: rows
      else x :: place q e rest
  end.

(** Modelled from the spec: the rows of the index in ascending order of
    distance to the query (section 4.6). *)
Definition ranked (q : string) (rows : list IndexEntry) : list IndexEntry :=
  foldl (fun acc e => place q e acc) [] rows.

(** Modelled from the spec: the nearest-neighbour search, "the k closest
    IndexEntry rows ordered by ascending distance" (section 4.6). *)
Definition nearest (q : string) (n : nat) (rows : list IndexEntry)
    : list IndexEntry :=
  take n (ranked q rows).

(** Modelled from the spec: the source text of a row (section 4.6): the
    chunk of its ordinal in the extracted text of its document, found
    through the source URL (section 3); empty when the text is not in the
    store. *)
Definition source_text (s : State) (e : IndexEntry) : string :=
  match extracted s !! meta_source e with
  | Some et =>
      match text_store s !! text_path et with
      | Some txt =>
          match chunk (meta_source e) txt !! meta_ordinal e with
          | Some c => chunk_text c
          | None => ""%string
          end
      | None => ""%string
      end
  | None => ""%string
  end.

(** Modelled from the spec: a result of the response (section 6): the id
    of the chunk (its source URL, "#", its ordinal), the distance, the
    source text, and in [meta] the source document, the chunk ordinal and
    the number of chunks of the document, under the property names of
    types.ts. *)
Definition result_of (s : State) (q : string) (e : IndexEntry) : json :=
  JObject
    [("id"%string,
      JString (str (entry_id e).1
               ++ 35%Z :: JSLib.decimal (Z.of_nat (entry_id e).2)));
     ("distance"%string, JNumber (distance_to q e));
     ("text"%string, JString (str (source_text s e)));
     ("meta"%string,
      JObject
        [("source_pdf"%string, JString (str (meta_source e)));
         ("chunk_index"%string, JNumber (of_Z (Z.of_nat (meta_ordinal e))));
         ("chunk_count"%string, JNumber (of_Z (Z.of_nat (meta_total e))))])].

(** Modelled from the spec: the rows a query returns, at most the clamped
    [k] of them (section 4.6). *)
Definition hits (s : State) (q : string) (k : Z) : list IndexEntry :=
  nearest q (Z.to_nat (clamp_k k)) (index s).

(** Modelled from the spec: the Query Engine (sections 4.6 and 6): an
    empty query is a client error; otherwise the response is
    [{ q, k, results }] with the clamped [k]. *)
Definition query (s : State) (q : string) (k : Z) : reply :=
  if String.eqb q "" then ClientError empty_query
  else
    Response
      (JObject
         [("q"%string, JString (str q));
          ("k"%string, JNumber (of_Z (clamp_k k)));
          ("results"%string, JArray (map (result_of s q) (hits s q k)))]).

End Query.

(** A distance for the examples: the squared Euclidean distance of two
    vectors. *)
Fixpoint squared_distance (u v : vector) : Z :=
  match u, v with
  | a :: u', b :: v' => (a - b) ^ 2 + squared_distance u' v'
  | _, _ => 0
  end.

(** A configuration for the examples, with the message of search.ts. *)
Definition demo_ranking : Ranking :=
  {| metric := fun u v => of_Z (squared_distance u v);
     metric_number := fun u v =>
       match squared_distance u v as z return isNaN (of_Z z) = false with
       | Z0 => eq_refl
       | Zpos _ => eq_refl
       | Zneg _ => eq_refl
       end;
     empty_query := "Missing required query param: q" |}.

End QueryEngine.

(** The [meta] of a result carries the source document, the chunk ordinal
    and the number of chunks of the document. *)
Definition carries_provenance (j : json) : bool :=
  match j with
  | JObject props =>
      match Frontend.prop "meta" props with
      | Some (JObject meta) =>
          Frontend.required Frontend.is_string "source_pdf" meta
          && Frontend.required Frontend.is_number "chunk_index" meta
          && Frontend.required Frontend.is_number "chunk_count" meta
      | _ => false
      end
  | _ => false
  end.

(** The index after one run of the pipeline in the world of the examples. *)
Definition demo_state : Pipeline.State :=
  @Pipeline.run Pipeline.demo_world 1%nat Pipeline.empty_state.

(* ===================================================================== *)
(** ** Notions used in the further statements *)
(* ===================================================================== *)

(** A finite Number as a pair [(m, e)] of integers: it is [m * 2^e]. *)
Definition dyadic (x : number) : Z * Z :=
  match x with
  | S754_finite s m e => (signed s m, e)
  | _ => (0, 0)
  end.

(** A string is made of white space only. *)
Definition all_white (s : jsstring) : bool := forallb is_white_space s.

(** A decimal digit, and the integer a string of decimal digits denotes. *)
Definition is_digit (c : Z) : bool := (48 <=? c) && (c <=? 57).

Definition digits_value (ds : jsstring) : Z :=
  fold_left (fun acc c => 10 * acc + (c - 48)) ds 0.

(** A code unit of UTF-16. *)
Definition is_code_unit (c : Z) : bool := (0 <=? c) && (c <? 65536).

(** The magnitude of a finite Number is the fraction
    [numerator / denominator]. *)
Definition numerator (x : number) : Z :=
  Z.abs (dyadic x).1 * 2 ^ Z.max 0 (dyadic x).2.

Definition denominator (x : number) : Z := 2 ^ Z.max 0 (- (dyadic x).2).

(** A Number below zero; [-0] is not. *)
Definition negative (x : number) : bool :=
  match x with
  | S754_finite true _ _ | S754_infinity true => true
  | _ => false
  end.

(** A string whose surrogate code units come in pairs, a leading one
    followed by a trailing one ([String.prototype.isWellFormed]). *)
Fixpoint well_formed (s : jsstring) : bool :=
  match s with
  | [] => true
  | c :: t =>
      if is_trailing_surrogate c then false
      else if is_leading_surrogate c then
        match t with
        | d :: t' => is_trailing_surrogate d && well_formed t'
        | [] => false
        end
      else well_formed t
  end.

(** A character [encodeURIComponent] may produce: an unreserved one,
    or "%". *)
Definition is_encoded (c : Z) : bool := unreserved c || (c =? 37).

(** The number of occurrences of a code unit in a string. *)
Definition occurrences (c : Z) (s : jsstring) : nat :=
  length (List.filter (Z.eqb c) s).

(* ===================================================================== *)
(** ** Facts about the built-ins *)
(* ===================================================================== *)

Section BuiltinExamples.

(** [Number("0.1")] is the double [0x1.999999999999ap-4]. *)
Example Number_tenth :
  StringToNumber (str "0.1") = S754_finite false 7205759403792794 (-56).
Proof. vm_compute. reflexivity. Qed.

(** A tie is rounded to the even mantissa: [2^53 + 1] becomes [2^53]. *)
Example Number_tie :
  StringToNumber (str "9007199254740993")
  = S754_finite false 4503599627370496 1.
Proof. vm_compute. reflexivity. Qed.

Example Number_overflow : StringToNumber (str "1e400") = S754_infinity false.
Proof. vm_compute. reflexivity. Qed.

Example Number_hex : Math_floor (StringToNumber (str "0x1F")) = of_Z 31.
Proof. vm_compute. reflexivity. Qed.

Example Number_spaces : Math_floor (StringToNumber (str " 12 ")) = of_Z 12.
Proof. vm_compute. reflexivity. Qed.

Example Number_empty : StringToNumber (str "  ") = S754_zero false.
Proof. vm_compute. reflexivity. Qed.

Example Number_junk : StringToNumber (str "12px") = NaN.
Proof. vm_compute. reflexivity. Qed.

Example Number_negative_hex : StringToNumber (str "-0x10") = NaN.
Proof. vm_compute. reflexivity. Qed.

Example floor_negative_half :
  Math_floor (StringToNumber (str "-0.5")) = of_Z (-1).
Proof. vm_compute. reflexivity. Qed.

Example min_zeros : Math_min (S754_zero false) (S754_zero true) = S754_zero true.
Proof. reflexivity. Qed.

Example trim_example : trim (str "  flight logs  ") = str "flight logs".
Proof. reflexivity. Qed.

(** The nearest double to [7.9999999999999999999] is 8: the handler's [k]
    is 8, not 7. *)
Example clampK_rounding :
  Api.clampK (StringToNumber (str "7.9999999999999999999")) = of_Z 8.
Proof. vm_compute. reflexivity. Qed.

End BuiltinExamples.

Section Builtins.

Lemma cmp_dyadic_int_lt (M e c : Z) :
  cmp_dyadic M e c 0 = Lt -> Z.shiftl M e < c.
Proof.
  unfold cmp_dyadic. intros H. apply Z.compare_lt_iff in H.
  destruct (Z.min_spec e 0) as [[He Hm] | [He Hm]]; rewrite Hm in H.
  - rewrite Z.sub_diag, Z.mul_1_r, Z.sub_0_l in H.
    rewrite <- Z.shiftr_opp_r, Z.shiftr_div_pow2 by lia.
    apply Z.div_lt_upper_bound; [apply Z.pow_pos_nonneg; lia |].
    rewrite Z.mul_comm. exact H.
  - rewrite !Z.sub_0_r in H. change (2 ^ 0) with 1 in H.
    rewrite Z.mul_1_r in H.
    rewrite Z.shiftl_mul_pow2 by lia. exact H.
Qed.

Lemma cmp_dyadic_int_gt (c M e : Z) :
  cmp_dyadic c 0 M e = Lt -> c <= Z.shiftl M e.
Proof.
  unfold cmp_dyadic. intros H. apply Z.compare_lt_iff in H.
  destruct (Z.min_spec 0 e) as [[He Hm] | [He Hm]]; rewrite Hm in H.
  - rewrite !Z.sub_0_r in H. change (2 ^ 0) with 1 in H.
    rewrite Z.mul_1_r in H.
    rewrite Z.shiftl_mul_pow2 by lia. apply Z.lt_le_incl. exact H.
  - rewrite Z.sub_diag, Z.mul_1_r, Z.sub_0_l in H.
    rewrite <- Z.shiftr_opp_r, Z.shiftr_div_pow2 by lia.
    apply Z.div_le_lower_bound; [apply Z.pow_pos_nonneg; lia |].
    rewrite Z.mul_comm. apply Z.lt_le_incl. exact H.
Qed.

Lemma signed_of_Z (z : Z) :
  match of_Z z with
  | S754_zero _ => z = 0
  | S754_finite s m e => signed s m = z /\ e = 0
  | _ => False
  end.
Proof. destruct z; simpl; auto. Qed.

Lemma lt_of_Z (a b : Z) : lt (of_Z a) (of_Z b) = (a <? b).
Proof.
  destruct a, b; unfold lt, compare, cmp_dyadic; simpl; try reflexivity;
    rewrite ?Pos.mul_1_r; unfold Z.ltb; simpl;
    try reflexivity; destruct (_ ?= _)%positive; reflexivity.
Qed.

Lemma Math_min_of_Z (a b : Z) :
  a <> 0 -> Math_min (of_Z a) (of_Z b) = of_Z (Z.min a b).
Proof.
  intros Ha. unfold Math_min.
  assert (Hn : isNaN (of_Z a) || isNaN (of_Z b) = false)
    by (destruct a, b; reflexivity).
  rewrite Hn.
  assert (Hm : (if lt (of_Z b) (of_Z a) then of_Z b else of_Z a)
               = of_Z (Z.min a b)).
  { rewrite lt_of_Z. destruct (Z.ltb_spec b a).
    - rewrite Z.min_r by lia. reflexivity.
    - rewrite Z.min_l by lia. reflexivity. }
  rewrite <- Hm. destruct a; [congruence | |]; destruct b; reflexivity.
Qed.

Lemma Math_max_of_Z (a b : Z) :
  a <> 0 -> Math_max (of_Z a) (of_Z b) = of_Z (Z.max a b).
Proof.
  intros Ha. unfold Math_max.
  assert (Hn : isNaN (of_Z a) || isNaN (of_Z b) = false)
    by (destruct a, b; reflexivity).
  rewrite Hn.
  assert (Hm : (if lt (of_Z a) (of_Z b) then of_Z b else of_Z a)
               = of_Z (Z.max a b)).
  { rewrite lt_of_Z. destruct (Z.ltb_spec a b).
    - rewrite Z.max_r by lia. reflexivity.
    - rewrite Z.max_l by lia. reflexivity. }
  rewrite <- Hm. destruct a; [congruence | |]; destruct b; reflexivity.
Qed.

(** On a finite Number both [clampK] are the integer clamp of its floor. *)
Lemma clamp_finite (k : number) :
  isFinite k = true ->
  Math_max (of_Z 1) (Math_min (of_Z 25) (Math_floor k))
  = of_Z (Z.max 1 (Z.min 25 (floor_int k))).
Proof.
  destruct k as [s | s | | s m e]; try discriminate; intros _.
  - destruct s; reflexivity.
  - cbn [Math_floor floor_int].
    rewrite Math_min_of_Z by lia.
    assert (Z.min 25 (floorZ s m e) = 0 \/ Z.min 25 (floorZ s m e) <> 0)
      as [H0 | H0] by lia.
    + rewrite H0. reflexivity.
    + set (w := Z.min 25 (floorZ s m e)) in *.
      change (of_Z 1) with (of_Z 1). apply Math_max_of_Z. lia.
Qed.

Lemma floor_below_one (k : number) :
  isFinite k = true -> lt k (of_Z 1) = true -> floor_int k < 1.
Proof.
  destruct k as [s | s | | s m e]; try discriminate; intros _ H.
  - simpl. lia.
  - unfold lt, compare in H. simpl in H.
    destruct (cmp_dyadic (signed s m) e 1 0) eqn:E; try discriminate.
    apply cmp_dyadic_int_lt in E. exact E.
Qed.

Lemma floor_above_25 (k : number) :
  isFinite k = true -> lt (of_Z 25) k = true -> 25 <= floor_int k.
Proof.
  destruct k as [s | s | | s m e]; try discriminate; intros _ H.
  unfold lt, compare in H. simpl in H.
  destruct (cmp_dyadic 25 0 (signed s m) e) eqn:E; try discriminate.
  apply cmp_dyadic_int_gt in E. exact E.
Qed.

Lemma trimStart_white (s : jsstring) :
  forallb is_white_space s = true -> trimStart s = [].
Proof.
  induction s as [| c t IH]; simpl; [reflexivity |].
  intros H. apply andb_true_iff in H as [Hc Ht]. rewrite Hc. auto.
Qed.

Lemma trim_white (s : jsstring) :
  forallb is_white_space s = true -> trim s = [].
Proof. intros H. unfold trim. rewrite trimStart_white by exact H. reflexivity. Qed.

Lemma get_cases (params : URLSearchParams) (name : jsstring) :
  get params name = VNull \/ exists s, get params name = VString s.
Proof.
  induction params as [| [n v] rest IH]; simpl; [auto |].
  destruct (jsstring_eqb n name); eauto.
Qed.

End Builtins.

(* ===================================================================== *)
(** ** The handler *)
(* ===================================================================== *)

Section Handler.

Variable request : Api.HttpRequest.
Variable c : Api.InvocationContext.

Lemma read_q_spec :
  Api.read_q request = Normal (VString (trim (q_text request))).
Proof.
  unfold Api.read_q, q_text, q_param.
  destruct (get_cases (Api.query request) (str "q")) as [E | [s E]];
    rewrite E; [reflexivity |].
  destruct s; reflexivity.
Qed.

Lemma search_spec :
  Api.search request c
  = Normal (answer (trim (q_text request)) (Api.read_k request)).
Proof.
  unfold Api.search. rewrite read_q_spec.
  unfold mbind, completion_bind, answer.
  destruct (trim (q_text request)); reflexivity.
Qed.

Lemma clampK_spec (k : number) :
  Api.clampK k
  = if isFinite k then of_Z (Z.max 1 (Z.min 25 (floor_int k))) else of_Z 8.
Proof.
  unfold Api.clampK. destruct (isFinite k) eqn:E; simpl; [| reflexivity].
  apply clamp_finite, E.
Qed.

Lemma read_k_range : exists z, Api.read_k request = of_Z z /\ 1 <= z <= 25.
Proof.
  unfold Api.read_k. rewrite clampK_spec.
  destruct (isFinite _); eexists; split; try reflexivity; lia.
Qed.

Lemma read_k_default :
  k_param request = VNull \/ k_not_numeric request ->
  Api.read_k request = of_Z 8.
Proof.
  unfold Api.read_k, k_not_numeric, k_param.
  intros [E | [s [E Hs]]]; rewrite E; [reflexivity |].
  destruct s as [| a s]; [discriminate |].
  unfold or. cbn [truthy Number]. rewrite clampK_spec, Hs. reflexivity.
Qed.

Lemma q_text_string (s : jsstring) :
  q_param request = VString s -> q_text request = s.
Proof. unfold q_text. intros ->. reflexivity. Qed.

Lemma answer_ok (q : jsstring) (k : number) :
  q <> [] -> answer q k = ok_response q k [].
Proof. destruct q; [congruence | reflexivity]. Qed.

End Handler.

Section Trim.

Lemma trimStart_decompose (s : jsstring) :
  exists l, s = l ++ trimStart s /\ forallb is_white_space l = true.
Proof.
  induction s as [| a t [l [E W]]]; [exists []; auto |].
  simpl. destruct (is_white_space a) eqn:Ha.
  - exists (a :: l). simpl. rewrite Ha, W. split; [congruence | reflexivity].
  - exists []. auto.
Qed.

Lemma trimStart_head (s : jsstring) :
  match trimStart s with
  | a :: _ => is_white_space a = false
  | [] => True
  end.
Proof.
  induction s as [| a t IH]; simpl; [exact I |].
  destruct (is_white_space a) eqn:Ha; [exact IH | exact Ha].
Qed.

(** [trim] removes a run of white space at each end, and nothing else; what
    is left neither starts nor ends with white space. *)
Lemma trim_decompose (s : jsstring) :
  exists l r,
    s = l ++ trim s ++ r
    /\ forallb is_white_space l = true /\ forallb is_white_space r = true
    /\ match trim s with
       | a :: _ => is_white_space a = false
       | [] => True
       end
    /\ match rev (trim s) with
       | a :: _ => is_white_space a = false
       | [] => True
       end.
Proof.
  destruct (trimStart_decompose s) as [l [El Wl]].
  destruct (trimStart_decompose (rev (trimStart s))) as [r' [Er Wr]].
  pose proof (trimStart_head (rev (trimStart s))) as Hlast.
  pose proof (trimStart_head s) as Hfirst.
  unfold trim, trimEnd. set (m := trimStart s) in *.
  exists l, (rev r'). repeat split.
  - rewrite <- rev_app_distr, <- Er, rev_involutive. exact El.
  - exact Wl.
  - rewrite forallb_forall in *. intros x Hx. apply Wr.
    apply in_rev in Hx. exact Hx.
  - destruct (trimStart (rev m)) as [| z u] eqn:Eu; [exact I |].
    assert (Hm : m = rev (z :: u) ++ rev r').
    { rewrite <- rev_app_distr, <- Er, rev_involutive. reflexivity. }
    remember (rev (z :: u)) as w eqn:Ew. destruct w as [| b w].
    + apply (f_equal (@length Z)) in Ew. rewrite length_rev in Ew.
      discriminate.
    + rewrite Hm in Hfirst. exact Hfirst.
  - rewrite rev_involutive. exact Hlast.
Qed.

End Trim.

(* ===================================================================== *)
(** ** The search endpoint: the claims *)
(* ===================================================================== *)

(** C1. On every request the handler's [k] is an integer of [1, 25]; a
    finite [k] above 25 gives 25 and a finite [k] below 1 gives 1; such a
    [k] is corrected, the request is not rejected: with a non-empty [q] the
    answer is the 200 response carrying the clamped [k]. In particular
    [k = 200] gives 25 and [k = 0] gives 1 for [q = "flight logs"]. *)
Theorem search_clamps_k (request : Api.HttpRequest) (c : Api.InvocationContext) :
  (exists z, Api.read_k request = of_Z z /\ 1 <= z <= 25)
  /\ (isFinite (k_number request) = true ->
      lt (of_Z 25) (k_number request) = true ->
      Api.read_k request = of_Z 25)
  /\ (isFinite (k_number request) = true ->
      lt (k_number request) (of_Z 1) = true ->
      Api.read_k request = of_Z 1)
  /\ (forall s, q_param request = VString s -> trim s <> [] ->
      Api.search request c
      = Normal (ok_response (trim s) (Api.read_k request) []))
  /\ Api.search (request_of [("q", "flight logs"); ("k", "200")]%string) ctx
     = Normal (ok_response (str "flight logs") (of_Z 25) [])
  /\ Api.search (request_of [("q", "flight logs"); ("k", "0")]%string) ctx
     = Normal (ok_response (str "flight logs") (of_Z 1) []).
Proof.
  split; [apply read_k_range |].
  split; [| split; [| split; [| split; vm_compute; reflexivity]]].
  - intros Hf Hgt. change (Api.read_k request) with (Api.clampK (k_number request)).
    rewrite clampK_spec, Hf.
    pose proof (floor_above_25 _ Hf Hgt). f_equal. lia.
  - intros Hf Hlt. change (Api.read_k request) with (Api.clampK (k_number request)).
    rewrite clampK_spec, Hf.
    pose proof (floor_below_one _ Hf Hlt). f_equal. lia.
  - intros s Hq Hs. rewrite search_spec, (q_text_string _ _ Hq).
    rewrite answer_ok by exact Hs. reflexivity.
Qed.

Lemma search_clamps_k_witness :
  Api.read_k (request_of [("q", "flight logs"); ("k", "25.5")]%string) = of_Z 25
  /\ Api.read_k (request_of [("q", "flight logs"); ("k", "-3")]%string) = of_Z 1.
Proof.
  split.
  - apply (search_clamps_k
             (request_of [("q", "flight logs"); ("k", "25.5")]%string) ctx);
      vm_compute; reflexivity.
  - apply (search_clamps_k
             (request_of [("q", "flight logs"); ("k", "-3")]%string) ctx);
      vm_compute; reflexivity.
Defined.

(** C2. A request whose [q] is missing or empty is answered with the 400
    response carrying an error message; the promise is fulfilled (nothing is
    thrown) and the answer is not a 200 response with a results list. *)
Theorem search_missing_q (request : Api.HttpRequest) (c : Api.InvocationContext) :
  q_param request = VNull \/ q_param request = VString [] ->
  Api.search request c = Normal bad_request
  /\ Api.status bad_request = 400
  /\ Api.jsonBody bad_request
     = JObject [("error"%string, JString (str "Missing required query param: q"))]
  /\ forall q k results,
       Api.search request c <> Normal (ok_response q k results).
Proof.
  intros H.
  assert (E : Api.search request c = Normal bad_request).
  { rewrite search_spec. unfold q_text.
    destruct H as [-> | ->]; reflexivity. }
  rewrite E. repeat split. intros q k results. discriminate.
Qed.

Lemma search_missing_q_witness :
  Api.search (request_of [("k", "5")]%string) ctx = Normal bad_request
  /\ Api.search (request_of [("q", ""); ("k", "5")]%string) ctx = Normal bad_request.
Proof.
  split.
  - apply (search_missing_q (request_of [("k", "5")]%string) ctx).
    left. reflexivity.
  - apply (search_missing_q (request_of [("q", ""); ("k", "5")]%string) ctx).
    right. reflexivity.
Defined.

(** C3, as the claim states it, fails: [k = "abc"] is present and is not
    numeric, and the request [q = "flight logs"] is answered with the 200
    response and [k = 8]; no 400 response reports the malformed [k]. *)
Lemma search_non_numeric_k_counterexample :
  k_not_numeric (request_of [("q", "flight logs"); ("k", "abc")]%string)
  /\ Api.search (request_of [("q", "flight logs"); ("k", "abc")]%string) ctx
     = Normal (ok_response (str "flight logs") (of_Z 8) [])
  /\ ~ (exists resp,
          Api.search (request_of [("q", "flight logs"); ("k", "abc")]%string) ctx
          = Normal resp
          /\ Api.status resp = 400).
Proof.
  split; [| split].
  - exists (str "abc"). split; vm_compute; reflexivity.
  - vm_compute. reflexivity.
  - intros [resp [E S]]. vm_compute in E. injection E as <-. discriminate S.
Qed.

(** C3, amended. A [k] that is present and not numeric is never reported:
    the handler does not throw and goes on with the default [k = 8]; the
    answer depends on [q] alone, the 400 response for an empty [q] and
    otherwise the 200 response with [k = 8]. *)
Theorem search_non_numeric_k (request : Api.HttpRequest) (c : Api.InvocationContext) :
  k_not_numeric request ->
  Api.read_k request = of_Z 8
  /\ Api.search request c = Normal (answer (trim (q_text request)) (of_Z 8)).
Proof.
  intros H. assert (E : Api.read_k request = of_Z 8)
    by (apply read_k_default; right; exact H).
  split; [exact E |]. rewrite search_spec, E. reflexivity.
Qed.

Lemma search_non_numeric_k_witness :
  Api.read_k (request_of [("q", "flight logs"); ("k", "12abc")]%string) = of_Z 8.
Proof.
  apply (search_non_numeric_k
           (request_of [("q", "flight logs"); ("k", "12abc")]%string) ctx).
  exists (str "12abc"). split; vm_compute; reflexivity.
Defined.

(* ===================================================================== *)
(** ** The query path: ranking and shape *)
(* ===================================================================== *)

Section QueryFacts.

Import Pipeline QueryEngine.

Context `{World} `{Ranking}.

Lemma of_Z_inj (a b : Z) : of_Z a = of_Z b -> a = b.
Proof. destruct a, b; simpl; congruence. Qed.

Lemma str_nonempty (q : string) : q <> ""%string -> str q <> [].
Proof. destruct q; [congruence | discriminate]. Qed.

Lemma nonempty_eqb (q : string) : q <> ""%string -> String.eqb q "" = false.
Proof. destruct q; [congruence | reflexivity]. Qed.

(** The order of the language, read from the other side. *)
Lemma compare_swap (x y : number) :
  compare y x = option_map CompOpp (compare x y).
Proof.
  destruct x as [sx | sx | | sx mx ex], y as [sy | sy | | sy my ey];
    simpl; try reflexivity;
    try (destruct sx; reflexivity); try (destruct sy; reflexivity);
    try (destruct sx, sy; reflexivity);
    f_equal; unfold cmp_dyadic;
    rewrite ?(Z.min_comm ey ex), ?(Z.min_comm 0 ex), ?(Z.min_comm ey 0);
    apply Z.compare_antisym.
Qed.

Lemma lt_implies_le (x y : number) : lt x y = true -> le x y = true.
Proof. unfold lt, le. destruct (compare x y) as [[] |]; congruence. Qed.

(** On Numbers other than NaN the order is total. *)
Lemma le_of_not_lt (x y : number) :
  isNaN x = false -> isNaN y = false -> lt x y = false -> le y x = true.
Proof.
  intros Hx Hy. unfold lt, le. rewrite (compare_swap x y).
  destruct (compare x y) as [[] |] eqn:E; simpl; try congruence.
  destruct x, y; discriminate.
Qed.

Lemma clamp_k_range (k : Z) : 1 <= clamp_k k <= 25.
Proof. unfold clamp_k. lia. Qed.

Lemma clamp_k_id (k : Z) : 1 <= k <= 25 -> clamp_k k = k.
Proof. unfold clamp_k. lia. Qed.

(** *** What a result shows of its row *)

Lemma distance_result (s : State) (q : string) (e : IndexEntry) :
  distance (result_of s q e) = Some (distance_to q e).
Proof. reflexivity. Qed.

Lemma result_is_SearchResult (s : State) (q : string) (e : IndexEntry) :
  Frontend.is_SearchResult (result_of s q e) = true.
Proof. reflexivity. Qed.

Lemma result_carries_provenance (s : State) (q : string) (e : IndexEntry) :
  carries_provenance (result_of s q e) = true.
Proof. reflexivity. Qed.

Lemma distance_le_results (s : State) (q : string) (a b : IndexEntry) :
  distance_le (result_of s q a) (result_of s q b)
  = le (distance_to q a) (distance_to q b).
Proof. reflexivity. Qed.

(** *** Ranking *)

Lemma sorted_by_distance_cons (a b : json) (rest : list json) :
  sorted_by_distance (a :: b :: rest)
  = distance_le a b && sorted_by_distance (b :: rest).
Proof. reflexivity. Qed.

Lemma sorted_by_distance_take (n : nat) (rs : list json) :
  sorted_by_distance rs = true -> sorted_by_distance (take n rs) = true.
Proof.
  revert rs. induction n as [| n IH]; intros rs Hs; [reflexivity |].
  destruct rs as [| a [| b rest]]; try reflexivity.
  - destruct n; reflexivity.
  - rewrite sorted_by_distance_cons in Hs.
    apply andb_true_iff in Hs as [Hab Hrest].
    specialize (IH (b :: rest) Hrest).
    destruct n as [| n]; [reflexivity |].
    change (take (S (S n)) (a :: b :: rest))
      with (a :: b :: take n rest).
    change (take (S n) (b :: rest)) with (b :: take n rest) in IH.
    rewrite sorted_by_distance_cons, Hab, IH. reflexivity.
Qed.

Lemma place_sorted (s : State) (q : string) (e : IndexEntry)
    (rows : list IndexEntry) :
  sorted_by_distance (map (result_of s q) rows) = true ->
  sorted_by_distance (map (result_of s q) (place q e rows)) = true.
Proof.
  induction rows as [| x rest IH]; [reflexivity |].
  intros Hs. cbn [place].
  destruct (lt (distance_to q e) (distance_to q x)) eqn:Elt.
  - cbn [map] in *. rewrite sorted_by_distance_cons, Hs, andb_true_r.
    rewrite distance_le_results. apply lt_implies_le, Elt.
  - assert (Hxe : distance_le (result_of s q x) (result_of s q e) = true).
    { rewrite distance_le_results.
      apply le_of_not_lt; [apply metric_number .. | exact Elt]. }
    destruct rest as [| y rest'].
    + cbn [place map]. rewrite sorted_by_distance_cons, Hxe. reflexivity.
    + cbn [map] in Hs. rewrite sorted_by_distance_cons in Hs.
      apply andb_true_iff in Hs as [Hxy Hrest].
      specialize (IH Hrest). cbn [place] in *.
      destruct (lt (distance_to q e) (distance_to q y)); cbn [map] in *;
        rewrite sorted_by_distance_cons.
      * rewrite Hxe, IH. reflexivity.
      * rewrite Hxy, IH. reflexivity.
Qed.

Lemma ranked_sorted (s : State) (q : string) (rows : list IndexEntry) :
  sorted_by_distance (map (result_of s q) (ranked q rows)) = true.
Proof.
  unfold ranked.
  assert (G : forall acc,
             sorted_by_distance (map (result_of s q) acc) = true ->
             sorted_by_distance
               (map (result_of s q)
                  (foldl (fun acc e => place q e acc) acc rows)) = true).
  { induction rows as [| e rows IH]; intros acc Hacc; [exact Hacc |].
    simpl. apply IH, place_sorted, Hacc. }
  apply G. reflexivity.
Qed.

Lemma length_place (q : string) (e : IndexEntry) (rows : list IndexEntry) :
  length (place q e rows) = S (length rows).
Proof.
  induction rows as [| x rest IH]; [reflexivity |]. cbn [place].
  destruct (lt _ _); simpl; [reflexivity | rewrite IH; reflexivity].
Qed.

Lemma length_ranked (q : string) (rows : list IndexEntry) :
  length (ranked q rows) = length rows.
Proof.
  unfold ranked.
  assert (G : forall acc,
             length (foldl (fun acc e => place q e acc) acc rows)
             = (length acc + length rows)%nat).
  { induction rows as [| e rows IH]; intros acc; simpl; [lia |].
    rewrite IH, length_place. lia. }
  apply G.
Qed.

Lemma In_place (q : string) (e x : IndexEntry) (rows : list IndexEntry) :
  In x (place q e rows) -> x = e \/ In x rows.
Proof.
  induction rows as [| y rest IH]; simpl.
  - intros [<- | []]. left. reflexivity.
  - destruct (lt _ _); simpl; intros [E | Hin]; auto.
    destruct (IH Hin); auto.
Qed.

Lemma In_ranked (q : string) (x : IndexEntry) (rows : list IndexEntry) :
  In x (ranked q rows) -> In x rows.
Proof.
  unfold ranked.
  assert (G : forall acc,
             In x (foldl (fun acc e => place q e acc) acc rows) ->
             In x acc \/ In x rows).
  { induction rows as [| e rows IH]; intros acc; simpl; [auto |].
    intros Hin. destruct (IH _ Hin) as [Hp | Hr]; [| auto].
    destruct (In_place _ _ _ _ Hp); auto. }
  intros Hin. destruct (G [] Hin) as [[] | Hr]. exact Hr.
Qed.

Lemma In_take (n : nat) (x : IndexEntry) (rows : list IndexEntry) :
  In x (take n rows) -> In x rows.
Proof.
  revert rows. induction n as [| n IH]; intros [| y rows]; simpl; try tauto.
  intros [E | Hin]; auto.
Qed.

(** The rows of a query: sorted, as many as the index has up to the clamped
    [k], and rows of the index. *)
Lemma hits_spec (s : State) (q : string) (k : Z) :
  sorted_by_distance (map (result_of s q) (hits s q k)) = true
  /\ length (hits s q k)
     = Nat.min (Z.to_nat (clamp_k k)) (length (index s))
  /\ (forall e, In e (hits s q k) -> In e (index s)).
Proof.
  unfold hits, nearest. split; [| split].
  - rewrite <- firstn_map. apply sorted_by_distance_take, ranked_sorted.
  - rewrite length_take, length_ranked. reflexivity.
  - intros e Hin. apply (In_ranked q), (In_take _ _ _ Hin).
Qed.

(** The handler on a request whose trimmed [q] is not empty. *)
Lemma search_ok (request : Api.HttpRequest) (c : Api.InvocationContext) :
  trim (q_text request) <> [] ->
  Api.search request c
  = Normal (ok_response (trim (q_text request)) (Api.read_k request) []).
Proof. intros Hq. rewrite search_spec, answer_ok by exact Hq. reflexivity. Qed.

End QueryFacts.

(** C4. A successful query, one whose text is not empty, is answered with
    a response and not with a client error. Its results are no more than
    the [k] in use, which is the [k] asked for clamped to [1, 25] and the
    [k] the response carries: they are as many as the index has rows, up
    to that [k], hence no more than the [k] asked for when that is at
    least 1; and they are sorted by non-decreasing distance. Over an empty
    index the results are the empty list, in a response all the same; the
    handler of search.ts, which asks no index, answers a request for the
    same text and the same [k] with that response and status 200. *)
Theorem query_results_bounded_sorted
    `{Pipeline.World} `{QueryEngine.Ranking}
    (s : Pipeline.State) (q : string) (k : Z) :
  q <> ""%string ->
  exists results body,
    body = JObject
             [("q"%string, JString (str q));
              ("k"%string, JNumber (of_Z (QueryEngine.clamp_k k)));
              ("results"%string, JArray results)]
    /\ QueryEngine.query s q k = QueryEngine.Response body
    /\ 1 <= QueryEngine.clamp_k k <= 25
    /\ length results
       = Nat.min (Z.to_nat (QueryEngine.clamp_k k))
           (length (Pipeline.index s))
    /\ Z.of_nat (length results) <= QueryEngine.clamp_k k
    /\ (1 <= k -> Z.of_nat (length results) <= k)
    /\ sorted_by_distance results = true
    /\ (Pipeline.index s = [] ->
        results = []
        /\ forall request c,
             trim (q_text request) = str q ->
             Api.read_k request = of_Z k ->
             Api.search request c
             = Normal {| Api.status := 200; Api.jsonBody := body |}).
Proof.
  intros Hq.
  destruct (hits_spec s q k) as (Hsorted & Hlen & _).
  pose proof (clamp_k_range k) as Hk.
  exists (map (QueryEngine.result_of s q) (QueryEngine.hits s q k)).
  eexists. split; [reflexivity |].
  assert (Hbound : Z.of_nat (length (QueryEngine.hits s q k))
                   <= QueryEngine.clamp_k k) by lia.
  rewrite length_map.
  split; [| split; [| split; [| split; [| split; [| split]]]]];
    try assumption.
  - unfold QueryEngine.query. rewrite nonempty_eqb by exact Hq. reflexivity.
  - intros Hk1. unfold QueryEngine.clamp_k in Hbound. lia.
  - intros Hidx. rewrite Hidx in Hlen. simpl in Hlen.
    rewrite Nat.min_0_r in Hlen.
    destruct (QueryEngine.hits s q k); [| discriminate].
    split; [reflexivity |]. intros request c Etext Ek.
    destruct (read_k_range request) as (z & Ez & Hz).
    assert (z = k) by (apply of_Z_inj; congruence). subst z.
    rewrite clamp_k_id by exact Hz.
    rewrite search_ok by (rewrite Etext; apply str_nonempty, Hq).
    rewrite Etext, Ek. reflexivity.
Qed.

Lemma query_results_bounded_sorted_witness :
  (exists results,
     @QueryEngine.query Pipeline.demo_world QueryEngine.demo_ranking
       demo_state "flight" 3
     = QueryEngine.Response
         (JObject
            [("q"%string, JString (str "flight"));
             ("k"%string, JNumber (of_Z 3));
             ("results"%string, JArray results)])
     /\ length results = 3%nat
     /\ sorted_by_distance results = true)
  /\ Api.search (request_of [("q", " flight logs "); ("k", "200")]%string) ctx
     = Normal
         {| Api.status := 200;
            Api.jsonBody :=
              JObject
                [("q"%string, JString (str "flight logs"));
                 ("k"%string, JNumber (of_Z 25));
                 ("results"%string, JArray [])] |}.
Proof.
  split.
  - destruct (@query_results_bounded_sorted
                Pipeline.demo_world QueryEngine.demo_ranking
                demo_state "flight" 3 ltac:(discriminate))
      as (results & body & -> & E & _ & Hlen & _ & _ & Hsorted & _).
    exists results. split; [exact E |]. split; [exact Hlen | exact Hsorted].
  - destruct (@query_results_bounded_sorted
                Pipeline.demo_world QueryEngine.demo_ranking
                Pipeline.empty_state "flight logs" 25 ltac:(discriminate))
      as (results & body & -> & _ & _ & _ & _ & _ & _ & Hempty).
    destruct (Hempty eq_refl) as [-> Hhandler].
    apply Hhandler; vm_compute; reflexivity.
Defined.

(** C5. The body of the response to a successful query is the object
    [{ q, k, results }], with these three properties and no other: [q] is
    the query text, [k] is the integer of [1, 25] in use, and the results
    are those of rows of the index, as many as the index has up to [k];
    each is a [SearchResult] of types.ts, with strings [id] and [text], a
    number [distance] and an object [meta] that carries the source
    document, the chunk ordinal and the number of chunks of the document.
    The handler of search.ts answers every request whose trimmed [q] is
    not empty with status 200 and a body of that shape: the trimmed [q],
    the clamped [k], and the empty list of results. *)
Theorem query_response_shape
    `{Pipeline.World} `{QueryEngine.Ranking}
    (s : Pipeline.State) (q : string) (k : Z) :
  q <> ""%string ->
  exists rows,
    QueryEngine.query s q k
    = QueryEngine.Response
        (JObject
           [("q"%string, JString (str q));
            ("k"%string, JNumber (of_Z (QueryEngine.clamp_k k)));
            ("results"%string, JArray (map (QueryEngine.result_of s q) rows))])
    /\ 1 <= QueryEngine.clamp_k k <= 25
    /\ length rows
       = Nat.min (Z.to_nat (QueryEngine.clamp_k k))
           (length (Pipeline.index s))
    /\ (forall e, In e rows -> In e (Pipeline.index s))
    /\ Forall (fun r => Frontend.is_SearchResult r = true
                        /\ carries_provenance r = true)
         (map (QueryEngine.result_of s q) rows)
    /\ (forall request c,
          trim (q_text request) <> [] ->
          exists z,
            1 <= z <= 25 /\ Api.read_k request = of_Z z
            /\ Api.search request c
               = Normal
                   {| Api.status := 200;
                      Api.jsonBody :=
                        JObject
                          [("q"%string, JString (trim (q_text request)));
                           ("k"%string, JNumber (of_Z z));
                           ("results"%string, JArray [])] |}).
Proof.
  intros Hq.
  destruct (hits_spec s q k) as (_ & Hlen & Hin).
  exists (QueryEngine.hits s q k).
  split; [| split; [| split; [| split; [| split]]]]; try assumption.
  - unfold QueryEngine.query. rewrite nonempty_eqb by exact Hq. reflexivity.
  - apply clamp_k_range.
  - apply List.Forall_forall. intros r Hr.
    apply in_map_iff in Hr as (e & <- & _).
    split; [apply result_is_SearchResult | apply result_carries_provenance].
  - intros request c Hne.
    destruct (read_k_range request) as (z & Ez & Hz).
    exists z. split; [exact Hz |]. split; [exact Ez |].
    rewrite search_ok by exact Hne. rewrite Ez. reflexivity.
Qed.

Lemma query_response_shape_witness :
  (exists rows,
     @QueryEngine.query Pipeline.demo_world QueryEngine.demo_ranking
       demo_state "flight" 2
     = QueryEngine.Response
         (JObject
            [("q"%string, JString (str "flight"));
             ("k"%string, JNumber (of_Z 2));
             ("results"%string,
              JArray
                (map (@QueryEngine.result_of Pipeline.demo_world
                        QueryEngine.demo_ranking demo_state "flight") rows))])
     /\ length rows = 2%nat
     /\ Forall (fun r => Frontend.is_SearchResult r = true
                         /\ carries_provenance r = true)
          (map (@QueryEngine.result_of Pipeline.demo_world
                  QueryEngine.demo_ranking demo_state "flight") rows))
  /\ exists z,
       1 <= z <= 25
       /\ Api.search (request_of [("q", " flight logs "); ("k", "3")]%string) ctx
          = Normal
              {| Api.status := 200;
                 Api.jsonBody :=
                   JObject
                     [("q"%string, JString (str "flight logs"));
                      ("k"%string, JNumber (of_Z z));
                      ("results"%string, JArray [])] |}.
Proof.
  destruct (@query_response_shape
              Pipeline.demo_world QueryEngine.demo_ranking
              demo_state "flight" 2 ltac:(discriminate))
    as (rows & E & _ & Hlen & _ & Hshape & Hhandler).
  split.
  - exists rows. split; [exact E |]. split; [exact Hlen | exact Hshape].
  - destruct (Hhandler
                (request_of [("q", " flight logs "); ("k", "3")]%string) ctx
                ltac:(vm_compute; discriminate))
      as (z & Hz & _ & Esearch).
    exists z. split; [exact Hz | exact Esearch].
Defined.

(** C6. The handler is total: whatever [q] and [k] are, strings or absent,
    the promise is fulfilled with a response of status 200 or 400; nothing
    is thrown. *)
Theorem search_total (request : Api.HttpRequest) (c : Api.InvocationContext) :
  exists resp,
    Api.search request c = Normal resp
    /\ (Api.status resp = 200 \/ Api.status resp = 400).
Proof.
  rewrite search_spec. eexists. split; [reflexivity |].
  destruct (trim (q_text request)); simpl; auto.
Qed.

(** C8. [q] is trimmed before use. A [q] made of white space only is
    answered like a missing [q], with the 400 response; in a 200 response
    the [q] echoed is the trimmed string: the parameter without the white
    space at its two ends. *)
Theorem search_trims_q
    (request : Api.HttpRequest) (c : Api.InvocationContext) (s : jsstring) :
  q_param request = VString s ->
  (forallb is_white_space s = true ->
   Api.search request c = Normal bad_request)
  /\ (trim s <> [] ->
      Api.search request c
      = Normal (ok_response (trim s) (Api.read_k request) []))
  /\ exists l r,
       s = l ++ trim s ++ r
       /\ forallb is_white_space l = true /\ forallb is_white_space r = true
       /\ match trim s with
          | a :: _ => is_white_space a = false
          | [] => True
          end
       /\ match rev (trim s) with
          | a :: _ => is_white_space a = false
          | [] => True
          end.
Proof.
  intros Hq. rewrite search_spec, (q_text_string _ _ Hq).
  split; [| split].
  - intros W. rewrite trim_white by exact W. reflexivity.
  - intros Hs. rewrite answer_ok by exact Hs. reflexivity.
  - apply trim_decompose.
Qed.

Lemma search_trims_q_witness :
  Api.search (request_of [("q", "   "); ("k", "3")]%string) ctx
  = Normal bad_request
  /\ Api.search (request_of [("q", "  flight logs "); ("k", "3")]%string) ctx
     = Normal (ok_response (str "flight logs") (of_Z 3) []).
Proof.
  split.
  - apply (search_trims_q (request_of [("q", "   "); ("k", "3")]%string) ctx
             (str "   ")); reflexivity.
  - apply (search_trims_q
             (request_of [("q", "  flight logs "); ("k", "3")]%string) ctx
             (str "  flight logs ")); [reflexivity | discriminate].
Defined.

(** C9. When [k] is absent, or is not the text of a finite Number, the
    handler goes on with [k = 8]; the [k] of every response that has one is
    an integer of [1, 25]. *)
Theorem search_default_k (request : Api.HttpRequest) (c : Api.InvocationContext) :
  (k_param request = VNull \/ k_not_numeric request ->
   Api.read_k request = of_Z 8
   /\ Api.search request c = Normal (answer (trim (q_text request)) (of_Z 8)))
  /\ (forall resp kv,
        Api.search request c = Normal resp -> body_k resp = Some kv ->
        exists z, kv = JNumber (of_Z z) /\ 1 <= z <= 25).
Proof.
  split.
  - intros H. pose proof (read_k_default request H) as E.
    split; [exact E |]. rewrite search_spec, E. reflexivity.
  - intros resp kv. rewrite search_spec. intros [= <-].
    destruct (read_k_range request) as [z [Ek Hz]]. rewrite Ek.
    destruct (trim (q_text request)); cbn; [discriminate |].
    intros [= <-]. exists z. auto.
Qed.

Lemma search_default_k_witness :
  Api.search (request_of [("q", "flight logs")]%string) ctx
  = Normal (ok_response (str "flight logs") (of_Z 8) [])
  /\ Api.read_k (request_of [("q", "flight logs"); ("k", "Infinity")]%string)
     = of_Z 8.
Proof.
  split.
  - apply (search_default_k (request_of [("q", "flight logs")]%string) ctx).
    left. reflexivity.
  - apply (search_default_k
             (request_of [("q", "flight logs"); ("k", "Infinity")]%string) ctx).
    right. exists (str "Infinity"). split; vm_compute; reflexivity.
Defined.

(** C10. The [clampK] of the API and the [clampK] of the frontend return
    the same Number on every Number: 8 when it is not finite, and
    [max(1, min(25, floor k))] when it is. *)
Theorem clampK_agree (k : number) :
  Api.clampK k = Frontend.clampK k
  /\ (isFinite k = false -> Api.clampK k = of_Z 8)
  /\ (isFinite k = true ->
      Api.clampK k = of_Z (Z.max 1 (Z.min 25 (floor_int k)))).
Proof.
  split; [reflexivity |].
  rewrite clampK_spec. split; intros ->; reflexivity.
Qed.

Lemma clampK_agree_witness :
  Api.clampK (StringToNumber (str "7.9999999999999999999")) = of_Z 8
  /\ Api.clampK NaN = of_Z 8.
Proof.
  split.
  - refine (eq_trans
              (proj2 (proj2 (clampK_agree
                               (StringToNumber (str "7.9999999999999999999"))))
                     _) _); vm_compute; reflexivity.
  - apply (clampK_agree NaN). reflexivity.
Defined.

(* ===================================================================== *)
(** ** The ingestion pipeline: idempotence *)
(* ===================================================================== *)

Section Folds.

Context {St A : Type}.

Lemma foldl_preserve (f : St -> A -> St) (Q : St -> Prop) (l : list A) :
  (forall s b, Q s -> Q (f s b)) -> forall s, Q s -> Q (foldl f s l).
Proof.
  intros Hf. induction l as [| x l IH]; simpl; intros s Hs; [exact Hs |].
  apply IH, Hf, Hs.
Qed.

(** A step that settles its own item and leaves settled items settled has
    settled every item at the end of the loop. *)
Lemma foldl_establish (f : St -> A -> St) (P : A -> St -> Prop) :
  (forall s a, P a (f s a)) ->
  (forall s a b, P a s -> P a (f s b)) ->
  forall l s a, a ∈ l -> P a (foldl f s l).
Proof.
  intros Hest Hpres. induction l as [| x l IH]; intros s a Ha.
  - inversion Ha.
  - simpl. apply elem_of_cons in Ha as [-> | Ha].
    + apply foldl_preserve; [intros; apply Hpres; assumption | apply Hest].
    + apply IH, Ha.
Qed.

Lemma foldl_fixed (g : St -> A -> St) (l : list A) (s : St) :
  (forall a, a ∈ l -> g s a = s) -> foldl g s l = s.
Proof.
  induction l as [| x l IH]; simpl; intros H; [reflexivity |].
  rewrite H by apply list_elem_of_here.
  apply IH. intros a Ha. apply H, list_elem_of_further, Ha.
Qed.

End Folds.

(** Case analysis on every [match] of the goal, closing the branches that
    are immediate. *)
Ltac break_matches tac :=
  repeat (match goal with
          | |- context [match ?x with _ => _ end] => destruct x
          end; tac).

Section Idempotence.

Import Pipeline.
Context `{World}.
Local Open Scope nat_scope.

Lemma state_eq (s : State) :
  {| manifest := manifest s; raw_store := raw_store s;
     extracted := extracted s; text_store := text_store s;
     index := index s |} = s.
Proof. destruct s; reflexivity. Qed.

(** *** The download manager *)

Lemma download_one_settles (t : time) (s : State) (u : url) :
  dl_settled u (download_one t s u).
Proof.
  unfold download_one, dl_settled.
  destruct (manifest s !! u) as [r |] eqn:E; simpl.
  - destruct (doc_status r) eqn:Es.
    + destruct (fetch_document u) as [reason | body] eqn:Ef; simpl;
        rewrite lookup_insert_eq; eexists; split; eauto.
    + exists r. auto.
    + destruct (fetch_document u) as [reason | body] eqn:Ef; simpl;
        rewrite lookup_insert_eq; eexists; split; eauto.
  - destruct (fetch_document u) as [reason | body] eqn:Ef; simpl;
      rewrite lookup_insert_eq; eexists; split; eauto.
Qed.

Lemma download_one_fixed (t : time) (s : State) (u : url) :
  dl_settled u s -> download_one t s u = s.
Proof.
  intros [r [E [Hd | [reason [Ef Em]]]]]; unfold download_one;
    rewrite E; simpl.
  - rewrite Hd. reflexivity.
  - rewrite Ef. rewrite Em, (insert_id _ _ _ E).
    destruct (doc_status r); apply state_eq || reflexivity.
Qed.

Lemma download_one_manifest_other (t : time) (s : State) (u v : url) :
  u <> v -> manifest (download_one t s v) !! u = manifest s !! u.
Proof.
  intros Hne. unfold download_one.
  destruct (doc_status _); try reflexivity;
    destruct (fetch_document v); simpl; apply lookup_insert_ne; congruence.
Qed.

Lemma download_one_preserves_settled (t : time) (s : State) (u v : url) :
  dl_settled u s -> dl_settled u (download_one t s v).
Proof.
  intros Hs. destruct (decide (u = v)) as [<- | Hne].
  - rewrite download_one_fixed by exact Hs. exact Hs.
  - unfold dl_settled. rewrite download_one_manifest_other by exact Hne.
    exact Hs.
Qed.

Lemma download_one_index (t : time) (s : State) (u : url) :
  index (download_one t s u) = index s.
Proof.
  unfold download_one. destruct (doc_status _); try reflexivity;
    destruct (fetch_document u); reflexivity.
Qed.

(** *** Extraction, chunking and indexing *)

Lemma ingest_one_manifest (t : time) (s : State) (u : url) :
  manifest (ingest_one t s u) = manifest s.
Proof.
  unfold ingest_one.
  break_matches ltac:(try reflexivity).
Qed.

Lemma ingest_one_raw_store (t : time) (s : State) (u : url) :
  raw_store (ingest_one t s u) = raw_store s.
Proof.
  unfold ingest_one.
  break_matches ltac:(try reflexivity).
Qed.

Lemma ingest_one_extracted_other (t : time) (s : State) (u v : url) :
  u <> v -> extracted (ingest_one t s v) !! u = extracted s !! u.
Proof.
  intros Hne. unfold ingest_one.
  break_matches ltac:(try reflexivity).
  simpl. apply lookup_insert_ne. congruence.
Qed.

Lemma ingest_one_fixed (t : time) (s : State) (u : url) :
  pending_text s u = None -> ingest_one t s u = s.
Proof.
  unfold pending_text, ingest_one.
  break_matches ltac:(try reflexivity; try discriminate).
Qed.

Lemma ingest_one_settles (t : time) (s : State) (u : url) :
  pending_text (ingest_one t s u) u = None.
Proof.
  destruct (pending_text s u) as [txt |] eqn:E.
  - unfold pending_text in *. rewrite ingest_one_manifest.
    destruct (manifest s !! u) as [r |] eqn:Em; [| discriminate].
    unfold ingest_one. rewrite Em.
    destruct (doc_status r); try discriminate.
    destruct (content_hash r) as [h |]; [| discriminate].
    destruct (local_path r) as [p |]; [| discriminate].
    destruct (needs_extraction s u h); [| discriminate].
    destruct (raw_store s !! p) as [body |]; [| discriminate].
    destruct (extract_text body) as [[[txt' m] low] |]; [| discriminate].
    unfold needs_extraction. simpl. rewrite lookup_insert_eq. simpl.
    rewrite bool_decide_eq_true_2 by reflexivity. reflexivity.
  - rewrite ingest_one_fixed by exact E. exact E.
Qed.

Lemma pending_text_ext (s s' : State) (u : url) :
  manifest s' = manifest s -> raw_store s' = raw_store s ->
  extracted s' !! u = extracted s !! u ->
  pending_text s' u = pending_text s u.
Proof.
  intros Em Er Ee. unfold pending_text, needs_extraction.
  rewrite Em, Er, Ee. reflexivity.
Qed.

Lemma ingest_one_preserves_settled (t : time) (s : State) (u v : url) :
  pending_text s u = None -> pending_text (ingest_one t s v) u = None.
Proof.
  intros Hs. destruct (decide (u = v)) as [<- | Hne].
  - apply ingest_one_settles.
  - rewrite <- Hs. apply pending_text_ext.
    + apply ingest_one_manifest.
    + apply ingest_one_raw_store.
    + apply ingest_one_extracted_other, Hne.
Qed.

Lemma ingest_all_manifest (t : time) (l : list url) (s : State) :
  manifest (foldl (ingest_one t) s l) = manifest s.
Proof.
  apply (foldl_preserve (ingest_one t) (fun s' => manifest s' = manifest s));
    [| reflexivity].
  intros s' b <-. apply ingest_one_manifest.
Qed.

(** *** One more run changes nothing *)

Lemma run_fixed (t t' : time) (s : State) : run t' (run t s) = run t s.
Proof.
  unfold run at 1.
  set (s1 := foldl (download_one t) s discover).
  assert (E2 : run t s = foldl (ingest_one t) s1 (documents s1)) by reflexivity.
  set (s2 := run t s) in *.
  assert (Hm : manifest s2 = manifest s1)
    by (rewrite E2; apply ingest_all_manifest).
  assert (Hdl : foldl (download_one t') s2 discover = s2).
  { apply foldl_fixed. intros u Hu. apply download_one_fixed.
    unfold dl_settled. rewrite Hm.
    apply (foldl_establish (download_one t) dl_settled);
      [apply download_one_settles
      | intros; apply download_one_preserves_settled; assumption
      | exact Hu]. }
  rewrite Hdl.
  apply foldl_fixed. intros u Hu. apply ingest_one_fixed.
  unfold documents in Hu. rewrite Hm in Hu. rewrite E2.
  apply (foldl_establish (ingest_one t) (fun u s => pending_text s u = None));
    [apply ingest_one_settles
    | intros; apply ingest_one_preserves_settled; assumption
    | exact Hu].
Qed.

Lemma runs_fixed (t : time) (times : list time) (s : State) :
  runs times (run t s) = run t s.
Proof.
  unfold runs. apply foldl_fixed. intros t' _. apply run_fixed.
Qed.

End Idempotence.

Section PipelineExamples.

Import Pipeline.

(** The scenario of section 8 of the specification: of three URLs one is a
    404; the manifest has two downloaded records and one failed, and the
    index has the chunks of the two documents only. *)
Example demo_run :
  status_counts (@run demo_world 1%nat empty_state) = (0, 2, 1)%nat
  /\ chunk_ids (@run demo_world 1%nat empty_state)
     = [("https://www.justice.gov/a.pdf"%string, 0%nat);
        ("https://www.justice.gov/a.pdf"%string, 1%nat);
        ("https://www.justice.gov/a.pdf"%string, 2%nat);
        ("https://www.justice.gov/b.PDF"%string, 0%nat);
        ("https://www.justice.gov/b.PDF"%string, 1%nat)].
Proof. split; vm_compute; reflexivity. Qed.

(** Windows of 10 characters at a stride of 8. *)
Example demo_chunks :
  map (fun c => (ordinal c, chunk_text c, char_span c))
      (@chunk demo_world "u" "flight logs to palm beach")
  = [(0, "flight log"%string, (0, 10)); (1, "ogs to pal"%string, (8, 18));
     (2, "alm beach"%string, (16, 25))]%nat.
Proof. reflexivity. Qed.

End PipelineExamples.

Section IndexInvariant.

Import Pipeline.
Context `{World}.
Local Open Scope nat_scope.

Lemma chunk_entry_ids (u : url) (txt : string) (total : nat) :
  entry_id <$> (map (entry_of total) (chunk u txt))
  = (fun i => (u, i)) <$> seq 0 (chunk_count (String.length txt)).
Proof.
  unfold chunk. rewrite <- !list_fmap_compose. reflexivity.
Qed.

Lemma chunk_entries_wf (u : url) (txt : string) (total : nat) :
  Forall (fun e => entry_id e = (meta_source e, meta_ordinal e))
         (map (entry_of total) (chunk u txt)).
Proof.
  unfold chunk. apply Forall_forall. intros e He.
  apply list_elem_of_fmap in He as [c [-> Hc]].
  apply list_elem_of_fmap in Hc as [i [-> _]]. reflexivity.
Qed.

(** Re-indexing a document keeps the chunk ids of the index distinct. *)
Lemma reindex_wf (u : url) (txt : string) (rows : list IndexEntry) :
  NoDup (entry_id <$> rows) ->
  Forall (fun e => entry_id e = (meta_source e, meta_ordinal e)) rows ->
  NoDup (entry_id <$> reindex u txt rows)
  /\ Forall (fun e => entry_id e = (meta_source e, meta_ordinal e))
            (reindex u txt rows).
Proof.
  intros Hnd Hwf. unfold reindex. split.
  - rewrite fmap_app. apply NoDup_app. split; [| split].
    + eapply sublist_NoDup; [exact Hnd |].
      apply fmap_sublist, sublist_filter.
    + intros x Hx Hx'. rewrite chunk_entry_ids in Hx'.
      apply list_elem_of_fmap in Hx as [e [-> He]].
      apply list_elem_of_filter in He as [Hsrc He].
      apply list_elem_of_fmap in Hx' as [i [Ei _]].
      rewrite Forall_forall in Hwf. rewrite (Hwf e He) in Ei.
      injection Ei as Eu _. contradiction.
    + rewrite chunk_entry_ids. apply NoDup_fmap_2; [| apply NoDup_seq].
      intros i j [= ->]. reflexivity.
  - apply Forall_app. split.
    + apply Forall_forall. intros e He.
      apply list_elem_of_filter in He as [_ He].
      rewrite Forall_forall in Hwf. apply Hwf, He.
    + apply chunk_entries_wf.
Qed.

Lemma ingest_one_wf (t : time) (s : State) (u : url) :
  index_wf s -> index_wf (ingest_one t s u).
Proof.
  intros Hwf. unfold ingest_one.
  break_matches ltac:(try exact Hwf).
  destruct Hwf as [Hnd Hf]. unfold index_wf, chunk_ids. simpl.
  apply reindex_wf; assumption.
Qed.

Lemma download_one_wf (t : time) (s : State) (u : url) :
  index_wf s -> index_wf (download_one t s u).
Proof.
  unfold index_wf, chunk_ids. rewrite download_one_index. auto.
Qed.

Lemma run_wf (t : time) (s : State) : index_wf s -> index_wf (run t s).
Proof.
  intros Hwf. unfold run.
  apply foldl_preserve; [intros; apply ingest_one_wf; assumption |].
  apply foldl_preserve; [intros; apply download_one_wf; assumption |].
  exact Hwf.
Qed.

End IndexInvariant.

(** C7. Running the pipeline again on an unchanged input set changes
    nothing: after a first run from stores whose index has distinct chunk
    ids (the empty stores, for one), a second run at any later time leaves
    the same manifest status counts and the same chunk ids, the index has no
    two rows with one chunk id, and any number of further runs leaves the
    state of the first run. *)
Theorem pipeline_idempotent `{Pipeline.World}
    (s : Pipeline.State) (t t' : Pipeline.time) :
  Pipeline.index_wf s ->
  Pipeline.status_counts (Pipeline.run t' (Pipeline.run t s))
  = Pipeline.status_counts (Pipeline.run t s)
  /\ Pipeline.chunk_ids (Pipeline.run t' (Pipeline.run t s))
     = Pipeline.chunk_ids (Pipeline.run t s)
  /\ NoDup (Pipeline.chunk_ids (Pipeline.run t' (Pipeline.run t s)))
  /\ forall times,
       Pipeline.runs times (Pipeline.run t s) = Pipeline.run t s.
Proof.
  intros Hwf. rewrite run_fixed. repeat split.
  - apply (run_wf t s Hwf).
  - intros times. apply runs_fixed.
Qed.

Lemma pipeline_idempotent_witness :
  Pipeline.status_counts
    (@Pipeline.run Pipeline.demo_world 2%nat
       (@Pipeline.run Pipeline.demo_world 1%nat Pipeline.empty_state))
  = (0, 2, 1)%nat
  /\ NoDup (Pipeline.chunk_ids
              (@Pipeline.run Pipeline.demo_world 2%nat
                 (@Pipeline.run Pipeline.demo_world 1%nat Pipeline.empty_state))).
Proof.
  destruct (@pipeline_idempotent Pipeline.demo_world Pipeline.empty_state 1%nat 2%nat)
    as [Hc [_ [Hn _]]].
  - split; [apply NoDup_nil_2 | apply Forall_nil_2].
  - split; [| exact Hn]. rewrite Hc. vm_compute. reflexivity.
Defined.

(* ===================================================================== *)
(** ** Further properties of api/src/functions/search.ts *)
(* ===================================================================== *)

Section ClampFacts.

Lemma shiftl_le_mono (a b n : Z) : a <= b -> Z.shiftl a n <= Z.shiftl b n.
Proof.
  intros H. destruct (Z.le_gt_cases 0 n) as [Hn | Hn].
  - rewrite !Z.shiftl_mul_pow2 by exact Hn.
    apply Z.mul_le_mono_nonneg_r; [apply Z.pow_nonneg; lia | exact H].
  - rewrite <- !Z.shiftr_opp_r, !Z.shiftr_div_pow2 by lia.
    apply Z.div_le_mono; [apply Z.pow_pos_nonneg; lia | exact H].
Qed.

Lemma shiftl_rescale (m e e' : Z) :
  e' <= e -> Z.shiftl (m * 2 ^ (e - e')) e' = Z.shiftl m e.
Proof.
  intros H. rewrite <- Z.shiftl_mul_pow2 by lia.
  rewrite Z.shiftl_shiftl by lia. f_equal. lia.
Qed.

(** The floor is monotone for the exact order of dyadic values. *)
Lemma cmp_dyadic_floor (m1 e1 m2 e2 : Z) :
  cmp_dyadic m1 e1 m2 e2 <> Gt -> Z.shiftl m1 e1 <= Z.shiftl m2 e2.
Proof.
  unfold cmp_dyadic. intros H.
  change (m1 * 2 ^ (e1 - Z.min e1 e2) <= m2 * 2 ^ (e2 - Z.min e1 e2)) in H.
  apply (shiftl_le_mono _ _ (Z.min e1 e2)) in H.
  rewrite !shiftl_rescale in H by lia. exact H.
Qed.

Lemma compare_finite (x y : number) :
  isFinite x = true -> isFinite y = true ->
  compare x y
  = Some (cmp_dyadic (dyadic x).1 (dyadic x).2 (dyadic y).1 (dyadic y).2).
Proof.
  destruct x, y; try discriminate; intros _ _; reflexivity.
Qed.

Lemma floor_int_dyadic (x : number) :
  isFinite x = true -> floor_int x = Z.shiftl (dyadic x).1 (dyadic x).2.
Proof. destruct x; try discriminate; intros _; reflexivity. Qed.

Lemma floor_int_mono (a b : number) :
  isFinite a = true -> isFinite b = true -> le a b = true ->
  floor_int a <= floor_int b.
Proof.
  intros Ha Hb H. unfold le in H. rewrite compare_finite in H by assumption.
  rewrite !floor_int_dyadic by assumption.
  apply cmp_dyadic_floor. intros E. rewrite E in H. discriminate.
Qed.

Lemma floor_int_of_Z (z : Z) : floor_int (of_Z z) = z.
Proof. destruct z; reflexivity. Qed.

Lemma isFinite_of_Z (z : Z) : isFinite (of_Z z) = true.
Proof. destruct z; reflexivity. Qed.

Lemma floor_int_lt (k : number) (c : Z) :
  isFinite k = true -> lt k (of_Z c) = true -> floor_int k < c.
Proof.
  intros Hk H. unfold lt in H.
  rewrite compare_finite in H by (exact Hk || apply isFinite_of_Z).
  rewrite floor_int_dyadic by exact Hk.
  destruct (cmp_dyadic _ _ _ _) eqn:E; try discriminate.
  assert (Hc : dyadic (of_Z c) = (c, 0)) by (destruct c; reflexivity).
  rewrite Hc in E. apply cmp_dyadic_int_lt, E.
Qed.

End ClampFacts.

(** X1. [clampK] is idempotent: clamping a clamped value changes nothing,
    so the server's clamp leaves a [k] the client has clamped as it is. *)
Theorem clampK_idempotent (k : number) :
  Api.clampK (Api.clampK k) = Api.clampK k.
Proof.
  assert (H : exists z, Api.clampK k = of_Z z /\ 1 <= z <= 25).
  { rewrite clampK_spec. destruct (isFinite k); eexists; split;
      try reflexivity; lia. }
  destruct H as [z [-> Hz]].
  rewrite clampK_spec, isFinite_of_Z, floor_int_of_Z. f_equal. lia.
Qed.

(** X2. On finite Numbers [clampK] is monotone: a greater [k] never gives a
    smaller result. *)
Theorem clampK_monotone (a b : number) :
  isFinite a = true -> isFinite b = true -> le a b = true ->
  exists za zb,
    Api.clampK a = of_Z za /\ Api.clampK b = of_Z zb /\ za <= zb.
Proof.
  intros Ha Hb H. pose proof (floor_int_mono a b Ha Hb H).
  rewrite !clampK_spec, Ha, Hb. do 2 eexists.
  split; [reflexivity |]. split; [reflexivity |]. lia.
Qed.

Lemma clampK_monotone_witness :
  exists za zb,
    Api.clampK (StringToNumber (str "2.5")) = of_Z za
    /\ Api.clampK (StringToNumber (str "7")) = of_Z zb /\ za <= zb.
Proof.
  apply clampK_monotone; vm_compute; reflexivity.
Defined.

(** X3. A fraction is cut off, never rounded up: a finite [k] with
    [z <= k < z + 1], for an integer [z] of [1, 25], gives [z]. *)
Theorem clampK_truncates (k : number) (z : Z) :
  isFinite k = true -> 1 <= z <= 25 ->
  le (of_Z z) k = true -> lt k (of_Z (z + 1)) = true ->
  Api.clampK k = of_Z z.
Proof.
  intros Hk Hz Hle Hlt.
  pose proof (floor_int_mono _ _ (isFinite_of_Z z) Hk Hle) as H1.
  rewrite floor_int_of_Z in H1.
  pose proof (floor_int_lt _ _ Hk Hlt) as H2.
  rewrite clampK_spec, Hk. f_equal. lia.
Qed.

Lemma clampK_truncates_witness :
  Api.clampK (StringToNumber (str "7.999")) = of_Z 7.
Proof.
  apply clampK_truncates; vm_compute; try reflexivity; split; discriminate.
Defined.

Section HandlerFacts.

Lemma trim_nil_white (s : jsstring) : trim s = [] -> all_white s = true.
Proof.
  intros E. destruct (trim_decompose s) as [l [r [Es [Wl [Wr _]]]]].
  rewrite E in Es. simpl in Es. rewrite Es. unfold all_white.
  rewrite forallb_app, Wl, Wr. reflexivity.
Qed.

Lemma trim_nil_iff (s : jsstring) : trim s = [] <-> all_white s = true.
Proof. split; [apply trim_nil_white | apply trim_white]. Qed.

Lemma get_app (p1 p2 : URLSearchParams) (name : jsstring) :
  get (p1 ++ p2) name
  = match get p1 name with
    | VNull => get p2 name
    | v => v
    end.
Proof.
  induction p1 as [| [n v] rest IH]; simpl; [reflexivity |].
  destruct (jsstring_eqb n name); [reflexivity | exact IH].
Qed.

Lemma search_ext (r1 r2 : Api.HttpRequest) (c1 c2 : Api.InvocationContext) :
  q_param r1 = q_param r2 -> k_param r1 = k_param r2 ->
  Api.search r1 c1 = Api.search r2 c2.
Proof.
  intros Hq Hk. rewrite !search_spec. unfold q_text, Api.read_k.
  fold (k_param r1) (k_param r2). rewrite Hq, Hk. reflexivity.
Qed.

End HandlerFacts.

(** X4. The status is decided by [q] alone: the answer is the 400 response
    exactly when [q] is absent or made of white space only, and a 200
    response in every other case, whatever [k] is. *)
Theorem search_status_iff (request : Api.HttpRequest) (c : Api.InvocationContext) :
  exists resp,
    Api.search request c = Normal resp
    /\ (Api.status resp = 400
        <-> q_param request = VNull
            \/ exists s, q_param request = VString s /\ all_white s = true)
    /\ (Api.status resp = 200
        <-> exists s, q_param request = VString s /\ all_white s = false).
Proof.
  rewrite search_spec. eexists. split; [reflexivity |].
  unfold q_text.
  destruct (get_cases (Api.query request) (str "q")) as [E | [s E]];
    fold (q_param request) in E; rewrite E.
  - simpl. split; split; try discriminate; auto.
    intros [s [Hs _]]. discriminate.
  - destruct (trim s) as [| a t] eqn:Et; simpl.
    + apply trim_nil_iff in Et. split; split; try discriminate.
      * intros _. right. eauto.
      * auto.
      * intros [s' [[= <-] W]]. congruence.
    + assert (W : all_white s = false).
      { destruct (all_white s) eqn:W; [| reflexivity].
        apply trim_nil_iff in W. congruence. }
      split; split; try discriminate.
      * intros [? | [s' [[= <-] W']]]; congruence.
      * intros _. eauto.
      * auto.
Qed.

Lemma search_status_iff_witness :
  exists resp,
    Api.search (request_of [("q", "  "); ("k", "3")]%string) ctx = Normal resp
    /\ Api.status resp = 400.
Proof.
  destruct (search_status_iff
              (request_of [("q", "  "); ("k", "3")]%string) ctx)
    as [resp [E [H400 _]]].
  exists resp. split; [exact E |].
  apply H400. right. exists (str "  "). split; reflexivity.
Defined.

(** X5. Of a repeated parameter the handler reads the first occurrence,
    and it reads [q] and [k] only: once a request has both, the parameters
    that follow do not change the answer, and a parameter of another name
    in front does not either. *)
Theorem search_first_occurrence
    (params extra : URLSearchParams) (name value : jsstring)
    (c : Api.InvocationContext) :
  (get params (str "q") <> VNull -> get params (str "k") <> VNull ->
   Api.search {| Api.query := params ++ extra |} c
   = Api.search {| Api.query := params |} c)
  /\ (name <> str "q" -> name <> str "k" ->
      Api.search {| Api.query := (name, value) :: params |} c
      = Api.search {| Api.query := params |} c).
Proof.
  split.
  - intros Hq Hk. apply search_ext; unfold q_param, k_param; simpl;
      rewrite get_app.
    + destruct (get params (str "q")); congruence.
    + destruct (get params (str "k")); congruence.
  - intros Hq Hk. apply search_ext; unfold q_param, k_param; simpl;
      unfold jsstring_eqb; rewrite bool_decide_eq_false_2 by assumption;
      reflexivity.
Qed.

Lemma search_first_occurrence_witness :
  Api.search (request_of [("q", "a"); ("k", "3"); ("q", "b"); ("k", "9")]%string) ctx
  = Api.search (request_of [("q", "a"); ("k", "3")]%string) ctx
  /\ Api.search (request_of [("page", "2"); ("q", "a")]%string) ctx
     = Api.search (request_of [("q", "a")]%string) ctx.
Proof.
  split.
  - apply (search_first_occurrence
             (Api.query (request_of [("q", "a"); ("k", "3")]%string))
             (Api.query (request_of [("q", "b"); ("k", "9")]%string))
             [] [] ctx); discriminate.
  - apply (search_first_occurrence
             (Api.query (request_of [("q", "a")]%string)) []
             (str "page") (str "2") ctx); discriminate.
Defined.

Section DecimalK.

(** The ten cases of a decimal digit. *)
Ltac digit_cases c H :=
  let Hc := fresh "Hc" in
  let H1 := fresh "H" in
  let H2 := fresh "H" in
  unfold is_digit in H; apply andb_true_iff in H as [H1 H2];
  apply Z.leb_le in H1; apply Z.leb_le in H2;
  assert (Hc : c = 48 \/ c = 49 \/ c = 50 \/ c = 51 \/ c = 52 \/ c = 53
               \/ c = 54 \/ c = 55 \/ c = 56 \/ c = 57) by lia;
  repeat (destruct Hc as [-> | Hc]); [.. | subst c].

Lemma digit_val_digit (c : Z) :
  is_digit c = true -> digit_val c = Some (c - 48).
Proof. unfold is_digit, digit_val. intros ->. reflexivity. Qed.

Lemma digit_not_white (c : Z) : is_digit c = true -> is_white_space c = false.
Proof. intros H. digit_cases c H; reflexivity. Qed.

Lemma take_digits_all (ds : jsstring) (acc cnt : Z) :
  forallb is_digit ds = true ->
  take_digits acc cnt ds
  = (fold_left (fun a c => 10 * a + (c - 48)) ds acc,
     cnt + Z.of_nat (length ds), []).
Proof.
  revert acc cnt. induction ds as [| c t IH]; intros acc cnt H; simpl.
  - rewrite Z.add_0_r. reflexivity.
  - apply andb_true_iff in H as [Hc Ht].
    rewrite (digit_val_digit c Hc), IH by exact Ht.
    replace (cnt + 1 + Z.of_nat (length t))
      with (cnt + Z.of_nat (S (length t))) by lia.
    reflexivity.
Qed.

Lemma trimStart_id (s : jsstring) :
  match s with
  | c :: _ => is_white_space c = false
  | [] => True
  end -> trimStart s = s.
Proof. destruct s as [| c t]; simpl; [reflexivity | intros ->; reflexivity]. Qed.

(** A string that neither starts nor ends with white space is its own
    trim. *)
Lemma trim_id (s : jsstring) :
  match s with
  | c :: _ => is_white_space c = false
  | [] => True
  end ->
  match rev s with
  | c :: _ => is_white_space c = false
  | [] => True
  end ->
  trim s = s.
Proof.
  intros H1 H2. unfold trim, trimEnd.
  rewrite (trimStart_id s H1), (trimStart_id (rev s) H2).
  apply rev_involutive.
Qed.

Lemma trim_digits (ds : jsstring) : forallb is_digit ds = true -> trim ds = ds.
Proof.
  intros H. apply trim_id.
  - destruct ds as [| c t]; [exact I |].
    apply andb_true_iff in H as [Hc _]. apply digit_not_white, Hc.
  - assert (Hr : forallb is_digit (rev ds) = true).
    { rewrite forallb_forall in *. intros x Hx. apply H, in_rev, Hx. }
    destruct (rev ds) as [| c t]; [exact I |].
    apply andb_true_iff in Hr as [Hc _]. apply digit_not_white, Hc.
Qed.

Lemma parse_numeric_digits (c : Z) (t : jsstring) :
  forallb is_digit (c :: t) = true ->
  parse_numeric (c :: t) = parse_unsigned_decimal false (c :: t).
Proof.
  intros H. simpl in H. apply andb_true_iff in H as [Hc Ht].
  digit_cases c Hc; try reflexivity.
  destruct t as [| d t']; [reflexivity |].
  simpl in Ht. apply andb_true_iff in Ht as [Hd _].
  digit_cases d Hd; reflexivity.
Qed.

(** The Number of a string of decimal digits is the rounding of the
    integer it denotes. *)
Lemma StringToNumber_digits (ds : jsstring) :
  ds <> [] -> forallb is_digit ds = true ->
  StringToNumber ds = of_decimal false (digits_value ds) 0.
Proof.
  intros Hne H. unfold StringToNumber. rewrite trim_digits by exact H.
  destruct ds as [| c t]; [congruence |].
  rewrite parse_numeric_digits by exact H.
  unfold parse_unsigned_decimal.
  assert (Hinf : jsstring_eqb (c :: t) (str "Infinity") = false).
  { apply bool_decide_eq_false_2. intros E. rewrite E in H. discriminate. }
  rewrite Hinf, take_digits_all by exact H.
  cbn beta iota zeta.
  assert (Hpos : (0 <? 0 + Z.of_nat (length (c :: t)) + 0) = true)
    by (apply Z.ltb_lt; simpl length; lia).
  rewrite Hpos. reflexivity.
Qed.

Lemma clampK_small_integer (n : Z) :
  0 <= n <= 25 -> Api.clampK (of_decimal false n 0) = of_Z (Z.max 1 n).
Proof.
  intros H.
  assert (Hall : forall m : nat, (m <= 25)%nat ->
            Api.clampK (of_decimal false (Z.of_nat m) 0)
            = of_Z (Z.max 1 (Z.of_nat m))).
  { intros m Hm.
    do 26 (destruct m as [| m]; [vm_compute; reflexivity |]). lia. }
  rewrite <- (Z2Nat.id n) by lia. apply Hall. lia.
Qed.

Lemma read_k_decimal (request : Api.HttpRequest) (ds : jsstring) :
  k_param request = VString ds ->
  ds <> [] -> forallb is_digit ds = true ->
  0 <= digits_value ds <= 25 ->
  Api.read_k request = of_Z (Z.max 1 (digits_value ds)).
Proof.
  intros Hk Hne Hd Hv. unfold Api.read_k. fold (k_param request).
  rewrite Hk. destruct ds as [| c t] eqn:E; [congruence |].
  unfold or. cbn [truthy Number]. rewrite <- E in *.
  rewrite StringToNumber_digits by assumption.
  apply clampK_small_integer, Hv.
Qed.

End DecimalK.

(** X6. A [k] written as a decimal integer from 0 to 25, with or without
    leading zeros, is honoured as it is written: the handler's [k] is that
    integer, and 1 for 0. *)
Theorem search_decimal_k (request : Api.HttpRequest) (ds : jsstring) :
  k_param request = VString ds ->
  ds <> [] -> forallb is_digit ds = true ->
  0 <= digits_value ds <= 25 ->
  Api.read_k request = of_Z (Z.max 1 (digits_value ds)).
Proof.
  intros Hk Hne Hd Hv.
  pose proof (read_k_decimal request ds Hk Hne Hd Hv) as E.
  rewrite E. reflexivity.
Qed.

Lemma search_decimal_k_witness :
  Api.read_k (request_of [("q", "flight logs"); ("k", "007")]%string) = of_Z 7.
Proof.
  apply (search_decimal_k
           (request_of [("q", "flight logs"); ("k", "007")]%string)
           (str "007")); try reflexivity; [discriminate |].
  vm_compute. split; discriminate.
Defined.

(* ===================================================================== *)
(** ** Properties of frontend/src/App.tsx *)
(* ===================================================================== *)

Section DecimalFacts.

Lemma digits_value_app (a b : jsstring) :
  digits_value (a ++ b)
  = fold_left (fun acc c => 10 * acc + (c - 48)) b (digits_value a).
Proof. unfold digits_value. apply fold_left_app. Qed.

Lemma digits_value_snoc (a : jsstring) (d : Z) :
  digits_value (a ++ [d]) = 10 * digits_value a + (d - 48).
Proof. rewrite digits_value_app. reflexivity. Qed.

Lemma digits_value_zeros (j : nat) (m : jsstring) :
  digits_value (repeat 48 j ++ m) = digits_value m.
Proof.
  unfold digits_value. rewrite fold_left_app. f_equal.
  induction j as [| j IH]; [reflexivity |].
  replace (S j) with (j + 1)%nat by lia.
  rewrite repeat_app, fold_left_app, IH. reflexivity.
Qed.

Lemma log2_div10_lt (n : Z) : 10 <= n -> Z.log2 (n / 10) < Z.log2 n.
Proof.
  intros H. apply Z.log2_lt_pow2.
  - apply Z.div_str_pos. lia.
  - pose proof (Z.log2_spec n ltac:(lia)) as [_ Hu].
    rewrite Z.pow_succ_r in Hu by apply Z.log2_nonneg.
    apply Z.div_lt_upper_bound; lia.
Qed.

(** With enough fuel, the digits put in front of [acc] are decimal
    digits, at least one, and denote [n]. *)
Lemma decimal_fuel_spec (fuel : nat) :
  forall (n : Z) (acc : jsstring),
    0 <= n -> (Z.to_nat (Z.log2 n) < fuel)%nat ->
    exists ds,
      decimal_fuel fuel n acc = ds ++ acc
      /\ ds <> [] /\ forallb is_digit ds = true /\ digits_value ds = n.
Proof.
  induction fuel as [| fuel IH]; intros n acc Hn Hf; [lia |].
  simpl. destruct (Z.ltb_spec n 10) as [Hlt | Hge].
  - exists [48 + n]. repeat split; try discriminate.
    + simpl. unfold is_digit.
      rewrite andb_true_r, andb_true_iff, !Z.leb_le. lia.
    + unfold digits_value. simpl. lia.
  - pose proof (log2_div10_lt n Hge) as Hl.
    pose proof (Z.log2_nonneg (n / 10)) as Hl0.
    destruct (IH (n / 10) ((48 + n mod 10) :: acc)) as [ds [E [Hne [Hd Hv]]]].
    + apply Z.div_pos; lia.
    + lia.
    + exists (ds ++ [48 + n mod 10]). rewrite E, <- app_assoc.
      split; [reflexivity |].
      split; [destruct ds; discriminate |].
      split.
      * rewrite forallb_app, Hd. simpl. unfold is_digit.
        pose proof (Z.mod_pos_bound n 10 ltac:(lia)).
        rewrite andb_true_r, andb_true_iff, !Z.leb_le. lia.
      * rewrite digits_value_snoc, Hv.
        pose proof (Z.div_mod n 10 ltac:(lia)). lia.
Qed.

Lemma decimal_spec (n : Z) :
  0 <= n ->
  decimal n <> [] /\ forallb is_digit (decimal n) = true
  /\ digits_value (decimal n) = n.
Proof.
  intros Hn. unfold decimal.
  destruct (decimal_fuel_spec (S (Z.to_nat (Z.log2 n))) n [] Hn ltac:(lia))
    as [ds [E H]].
  rewrite E, app_nil_r. exact H.
Qed.

End DecimalFacts.

Section FormatDistance.

Context `{Engine}.

Lemma cmp_dyadic_antisym (m1 e1 m2 e2 : Z) :
  cmp_dyadic m2 e2 m1 e1 = CompOpp (cmp_dyadic m1 e1 m2 e2).
Proof.
  unfold cmp_dyadic. rewrite (Z.min_comm e2 e1). apply Z.compare_antisym.
Qed.

Lemma lt_not_le (x y : number) :
  isFinite x = true -> isFinite y = true -> lt x y = true -> le y x = false.
Proof.
  intros Hx Hy. unfold lt, le.
  rewrite (compare_finite x y), (compare_finite y x) by assumption.
  rewrite (cmp_dyadic_antisym (dyadic x).1).
  destruct (cmp_dyadic _ _ _ _); simpl; congruence.
Qed.

(** [toFixed(4)] lays the digits of [n] out with a point before the last
    four, after padding to five digits. *)
Lemma fixed_digits_four (n : Z) :
  0 <= n ->
  exists ip fp,
    fixed_digits n 4 = ip ++ 46 :: fp
    /\ ip <> [] /\ forallb is_digit ip = true
    /\ length fp = 4%nat /\ forallb is_digit fp = true
    /\ digits_value (ip ++ fp) = n.
Proof.
  intros Hn. destruct (decimal_spec n Hn) as [Hne [Hd Hv]].
  unfold fixed_digits. change (4 =? 0) with false. cbn iota.
  set (m := decimal n) in *.
  set (m' := if Z.of_nat (length m) <=? 4
             then repeat 48 (Z.to_nat (4 + 1 - Z.of_nat (length m))) ++ m
             else m).
  assert (Hm' : (5 <= length m')%nat /\ forallb is_digit m' = true
                /\ digits_value m' = n).
  { unfold m'. destruct (Z.leb_spec (Z.of_nat (length m)) 4) as [Hk | Hk].
    - rewrite length_app, repeat_length, forallb_app, Hd, digits_value_zeros.
      repeat split; [lia | | exact Hv].
      rewrite andb_true_r. apply forallb_forall. intros x Hx.
      apply repeat_spec in Hx. subst x. reflexivity.
    - repeat split; [lia | exact Hd | exact Hv]. }
  destruct Hm' as [Hlen [Hd' Hv']].
  set (j := Z.to_nat (Z.of_nat (length m') - 4)).
  assert (Hj : (1 <= j /\ j + 4 = length m')%nat) by (unfold j; lia).
  exists (take j m'), (drop j m').
  rewrite <- (take_drop j m') in Hd', Hv'.
  rewrite forallb_app in Hd'. apply andb_true_iff in Hd' as [Hd1 Hd2].
  repeat split; try assumption.
  - intros E. apply (f_equal (@length Z)) in E.
    rewrite length_take in E. simpl in E. lia.
  - rewrite length_drop. lia.
Qed.

(** The integer [toFixed] prints is within one half of the scaled value. *)
Lemma nearest_scaled_error (s : bool) (m : positive) (e : Z) :
  0 <= nearest_scaled m e 4
  /\ 2 * Z.abs (nearest_scaled m e 4 * denominator (S754_finite s m e)
                - 10 ^ 4 * numerator (S754_finite s m e))
     <= denominator (S754_finite s m e).
Proof.
  unfold nearest_scaled, numerator, denominator. cbn [dyadic fst snd].
  assert (Hs : Z.abs (signed s m) = Zpos m) by (destruct s; reflexivity).
  rewrite Hs. destruct (Z.leb_spec 0 e) as [He | He].
  - rewrite (Z.max_r 0 e), (Z.max_l 0 (- e)) by lia. change (2 ^ 0) with 1.
    pose proof (Z.pow_pos_nonneg 2 e ltac:(lia) He).
    split; [nia |].
    replace (Zpos m * 2 ^ e * 10 ^ 4 * 1 - 10 ^ 4 * (Zpos m * 2 ^ e)) with 0
      by ring.
    simpl. lia.
  - rewrite (Z.max_l 0 e), (Z.max_r 0 (- e)) by lia. change (2 ^ 0) with 1.
    set (D := 2 ^ (- e)). assert (HD : 0 < D) by (apply Z.pow_pos_nonneg; lia).
    set (A := 2 * (Zpos m * 10 ^ 4) + D).
    pose proof (Z.div_mod A (2 * D) ltac:(lia)) as Hdm.
    pose proof (Z.mod_pos_bound A (2 * D) ltac:(lia)) as Hmod.
    set (n := A / (2 * D)) in *.
    assert (HA : 0 < A) by (unfold A; lia).
    split.
    + apply Z.div_pos; lia.
    + replace (10 ^ 4 * (Zpos m * 1)) with (Zpos m * 10 ^ 4) by ring.
      assert (E : 2 * (n * D) = A - A mod (2 * D)) by lia.
      unfold A in E at 1. lia.
Qed.

End FormatDistance.

(** X7. [formatDistance] never throws; it shows nothing for NaN and the
    infinities, and "0.0000", without a sign, for both zeros. *)
Theorem formatDistance_edges `{Engine} (d : number) :
  (exists text, App.formatDistance d = Return text)
  /\ (isFinite d = false -> App.formatDistance d = Return [])
  /\ (forall s, App.formatDistance (S754_zero s) = Return (str "0.0000")).
Proof.
  split; [| split].
  - unfold App.formatDistance, toFixed.
    change ((4 <? 0) || (100 <? 4)) with false. cbn iota.
    destruct d as [s | s | | s m e]; simpl; eauto.
    destruct (le _ _); eauto.
  - unfold App.formatDistance. intros ->. reflexivity.
  - intros s. reflexivity.
Qed.

Lemma formatDistance_edges_witness :
  App.formatDistance (H := demo_engine) (StringToNumber (str "Infinity"))
  = Return [].
Proof.
  apply (formatDistance_edges (H := demo_engine)). reflexivity.
Defined.

(** X8. A finite distance of magnitude below [10^21] is shown with a sign
    when it is below zero, at least one digit, a point and exactly four
    digits, and the number shown is within 0.00005 of the distance. *)
Theorem formatDistance_fixed `{Engine} (d : number) :
  isFinite d = true -> lt (SFabs d) (of_Z (10 ^ 21)) = true ->
  exists ip fp,
    App.formatDistance d
    = Return ((if negative d then str "-" else []) ++ ip ++ 46 :: fp)
    /\ ip <> [] /\ forallb is_digit ip = true
    /\ length fp = 4%nat /\ forallb is_digit fp = true
    /\ 2 * Z.abs (digits_value (ip ++ fp) * denominator d
                  - 10 ^ 4 * numerator d)
       <= denominator d.
Proof.
  intros Hf Hsmall. unfold App.formatDistance. rewrite Hf. cbn [negb].
  unfold toFixed. change ((4 <? 0) || (100 <? 4)) with false. cbn iota.
  destruct d as [s | s | | s m e]; try discriminate.
  - destruct (fixed_digits_four 0 ltac:(lia)) as [ip [fp [E [H1 [H2 [H3 [H4 H5]]]]]]].
    exists ip, fp. rewrite E. repeat split; try assumption.
    rewrite H5. vm_compute. discriminate.
  - assert (Hle : le (of_Z (10 ^ 21)) (S754_finite false m e) = false)
      by (apply lt_not_le; [reflexivity | reflexivity | exact Hsmall]).
    rewrite Hle.
    destruct (nearest_scaled_error s m e) as [Hn Herr].
    destruct (fixed_digits_four _ Hn) as [ip [fp [E [H1 [H2 [H3 [H4 H5]]]]]]].
    exists ip, fp. rewrite E, H5.
    repeat split; try assumption. destruct s; reflexivity.
Qed.

Lemma formatDistance_fixed_witness :
  exists ip fp,
    App.formatDistance (H := demo_engine) (StringToNumber (str "-0.123456"))
    = Return (str "-" ++ ip ++ 46 :: fp)
    /\ length fp = 4%nat.
Proof.
  destruct (formatDistance_fixed (H := demo_engine)
              (StringToNumber (str "-0.123456")))
    as [ip [fp [E [_ [_ [L _]]]]]]; [reflexivity | vm_compute; reflexivity |].
  exists ip, fp. split; [exact E | exact L].
Defined.

Section SourceLabel.

(** The last substring of a split has no separator, and is the whole
    string or what follows its last separator. *)
Lemma split_from_last (sep : Z) (s cur : jsstring) :
  ~ In sep cur ->
  exists p,
    last (split_from sep cur s) = Some p
    /\ ~ In sep p
    /\ (p = rev cur ++ s \/ exists pre, s = pre ++ sep :: p).
Proof.
  revert cur. induction s as [| c t IH]; intros cur Hc; simpl.
  - exists (rev cur). rewrite app_nil_r. repeat split; auto.
    intros Hin. apply Hc, in_rev, Hin.
  - destruct (Z.eqb_spec c sep) as [-> | Hne].
    + destruct (IH [] ltac:(auto)) as [p [Hl [Hp Hs]]].
      exists p. rewrite last_cons, Hl. repeat split; auto.
      right. destruct Hs as [-> | [pre ->]].
      * exists []. reflexivity.
      * exists (sep :: pre). reflexivity.
    + destruct (IH (c :: cur)) as [p [Hl [Hp Hs]]].
      { intros [-> | Hin]; [congruence | exact (Hc Hin)]. }
      exists p. repeat split; auto.
      destruct Hs as [-> | [pre ->]].
      * left. simpl. rewrite <- app_assoc. reflexivity.
      * right. exists (c :: pre). reflexivity.
Qed.

(** What [getSourceLabel] returns for the source string [s]. *)
Lemma label_of_source (s : jsstring) :
  s <> [] ->
  exists label,
    (parts ← split_method (Some (JString s)) 47;
     match last parts, Some (JString s) with
     | Some ((_ :: _) as part), _ => Return part
     | _, Some (JString whole) => Return whole
     | _, _ => Return []
     end) = Return label
    /\ label <> []
    /\ ((exists dir, s = dir ++ [47] /\ label = s)
        \/ (~ In 47 label /\ (s = label \/ exists dir, s = dir ++ 47 :: label))).
Proof.
  intros Hs. unfold mbind, result_bind, split_method, split.
  destruct (split_from_last 47 s [] ltac:(auto)) as [p [Hl [Hp Hd]]].
  unfold jsstring in *. rewrite Hl. destruct p as [| a p].
  - exists s. split; [reflexivity |]. split; [exact Hs |]. left.
    destruct Hd as [E | [pre E]]; [simpl in E; congruence |].
    exists pre. split; [exact E | reflexivity].
  - exists (a :: p). split; [reflexivity |]. split; [discriminate |].
    right. split; [exact Hp |]. destruct Hd as [E | [pre E]]; eauto.
Qed.

Lemma getSourceLabel_object (props mprops : list (string * json)) :
  Frontend.prop "meta" props = Some (JObject mprops) ->
  App.getSourceLabel (JObject props)
  = (parts ← split_method
       (if jtruthy (Frontend.prop "source_pdf" mprops)
        then Frontend.prop "source_pdf" mprops
        else jor (Frontend.prop "source_text" mprops)
                 (Some (JString (str "unknown")))) 47;
     match last parts,
           (if jtruthy (Frontend.prop "source_pdf" mprops)
            then Frontend.prop "source_pdf" mprops
            else jor (Frontend.prop "source_text" mprops)
                     (Some (JString (str "unknown")))) with
     | Some ((_ :: _) as part), _ => Return part
     | _, Some (JString whole) => Return whole
     | _, _ => Return []
     end).
Proof.
  intros Hm. unfold App.getSourceLabel.
  unfold mbind, result_bind, member. rewrite Hm. cbn [optional_member].
  destruct (jtruthy (Frontend.prop "source_pdf" mprops)); reflexivity.
Qed.

End SourceLabel.

(** X9. On a result of type [SearchResult], [getSourceLabel] does not
    throw and its label is never empty; when the result names no source
    ([source_pdf] and [source_text] absent or empty) the label
    is "unknown". *)
Theorem getSourceLabel_total (r : json) :
  Frontend.is_SearchResult r = true ->
  (exists label, App.getSourceLabel r = Return label /\ label <> [])
  /\ (forall props mprops,
        r = JObject props ->
        Frontend.prop "meta" props = Some (JObject mprops) ->
        jtruthy (Frontend.prop "source_pdf" mprops) = false ->
        jtruthy (Frontend.prop "source_text" mprops) = false ->
        App.getSourceLabel r = Return (str "unknown")).
Proof.
  intros Hr. split.
  - destruct r as [| | | | props]; try discriminate.
    unfold Frontend.is_SearchResult in Hr.
    apply andb_true_iff in Hr as [_ Hmeta].
    unfold Frontend.required in Hmeta.
    destruct (Frontend.prop "meta" props) as [m |] eqn:Em; [| discriminate].
    destruct m as [| | | | mprops]; try discriminate.
    rewrite (getSourceLabel_object props mprops Em).
    unfold Frontend.is_meta in Hmeta.
    apply andb_true_iff in Hmeta as [Hmeta _].
    apply andb_true_iff in Hmeta as [Hmeta _].
    apply andb_true_iff in Hmeta as [Hpdf Htext].
    unfold Frontend.optional in Hpdf, Htext.
    assert (Hsrc : exists s,
               (if jtruthy (Frontend.prop "source_pdf" mprops)
                then Frontend.prop "source_pdf" mprops
                else jor (Frontend.prop "source_text" mprops)
                         (Some (JString (str "unknown"))))
               = Some (JString s) /\ s <> []).
    { destruct (Frontend.prop "source_pdf" mprops) as [[| s | | |] |];
        try discriminate; cbn [jtruthy truthy].
      - destruct s as [| a s]; [| exists (a :: s); split; [reflexivity | discriminate]].
        unfold jor.
        destruct (Frontend.prop "source_text" mprops) as [[| s | | |] |];
          try discriminate; cbn [jtruthy truthy].
        + destruct s as [| a s]; eexists; split; reflexivity || discriminate.
        + eexists; split; reflexivity || discriminate.
      - unfold jor.
        destruct (Frontend.prop "source_text" mprops) as [[| s | | |] |];
          try discriminate; cbn [jtruthy truthy].
        + destruct s as [| a s]; eexists; split; reflexivity || discriminate.
        + eexists; split; reflexivity || discriminate. }
    destruct Hsrc as [s [-> Hs]].
    destruct (label_of_source s Hs) as [label [E [Hl _]]].
    exists label. split; assumption.
  - intros props mprops -> Em Hpdf Htext.
    rewrite (getSourceLabel_object props mprops Em), Hpdf.
    unfold jor. rewrite Htext. reflexivity.
Qed.

Lemma getSourceLabel_total_witness :
  App.getSourceLabel
    (JObject [("id"%string, JString (str "c1"));
              ("distance"%string, JNumber (of_Z 0));
              ("text"%string, JString (str "excerpt"));
              ("meta"%string, JObject [("chunk_index"%string, JNumber (of_Z 2))])])
  = Return (str "unknown").
Proof.
  eapply (proj2 (getSourceLabel_total _ _)); reflexivity.
  Unshelve. reflexivity.
Defined.

(** X10. The label is the file name of the source: for a source string
    [s] taken from [source_pdf], or from [source_text] when [source_pdf]
    is absent or empty, the label holds no "/" and is [s] itself or what
    follows the last "/" of [s]; a source that ends with "/" is shown
    whole. *)
Theorem getSourceLabel_basename
    (props mprops : list (string * json)) (s : jsstring) :
  Frontend.prop "meta" props = Some (JObject mprops) ->
  s <> [] ->
  Frontend.prop "source_pdf" mprops = Some (JString s)
  \/ (jtruthy (Frontend.prop "source_pdf" mprops) = false
      /\ Frontend.prop "source_text" mprops = Some (JString s)) ->
  exists label,
    App.getSourceLabel (JObject props) = Return label
    /\ label <> []
    /\ ((exists dir, s = dir ++ [47] /\ label = s)
        \/ (~ In 47 label /\ (s = label \/ exists dir, s = dir ++ 47 :: label))).
Proof.
  intros Em Hs Hsrc. rewrite (getSourceLabel_object props mprops Em).
  assert (E : (if jtruthy (Frontend.prop "source_pdf" mprops)
               then Frontend.prop "source_pdf" mprops
               else jor (Frontend.prop "source_text" mprops)
                        (Some (JString (str "unknown"))))
              = Some (JString s)).
  { destruct Hsrc as [-> | [-> ->]].
    - destruct s; [congruence | reflexivity].
    - destruct s; [congruence | reflexivity]. }
  rewrite E. apply label_of_source, Hs.
Qed.

Lemma getSourceLabel_basename_witness :
  exists label,
    App.getSourceLabel
      (JObject [("meta"%string,
                 JObject [("source_pdf"%string, JString (str ""));
                          ("source_text"%string,
                           JString (str "data/text/a.txt"))])])
    = Return label
    /\ ~ In 47 label.
Proof.
  destruct (getSourceLabel_basename
              [("meta"%string,
                JObject [("source_pdf"%string, JString (str ""));
                         ("source_text"%string,
                          JString (str "data/text/a.txt"))])]
              [("source_pdf"%string, JString (str ""));
               ("source_text"%string, JString (str "data/text/a.txt"))]
              (str "data/text/a.txt"))
    as [label [E [_ Hl]]]; [reflexivity | discriminate | right; split; reflexivity |].
  exists label. split; [exact E |].
  vm_compute in E. injection E as <-.
  intros Hin. simpl in Hin.
  repeat (destruct Hin as [Hin | Hin]; [discriminate |]). exact Hin.
Defined.

Section Encode.

Context {engine : Engine}.

Lemma hex_digit_unreserved (d : Z) :
  0 <= d < 16 -> unreserved (hex_digit d) = true.
Proof.
  intros H.
  assert (Hd : d = 0 \/ d = 1 \/ d = 2 \/ d = 3 \/ d = 4 \/ d = 5 \/ d = 6
               \/ d = 7 \/ d = 8 \/ d = 9 \/ d = 10 \/ d = 11 \/ d = 12
               \/ d = 13 \/ d = 14 \/ d = 15) by lia.
  repeat (destruct Hd as [-> | Hd]); try reflexivity. subst d. reflexivity.
Qed.

Lemma escape_encoded (octets : list Z) :
  Forall (fun b => 0 <= b < 256) octets ->
  forallb is_encoded (escape octets) = true.
Proof.
  unfold escape. induction 1 as [| b l Hb _ IH]; [reflexivity |].
  cbn [map concat app forallb]. rewrite IH.
  unfold is_encoded at 2 3.
  rewrite !hex_digit_unreserved; [reflexivity | |].
  - apply Z.mod_pos_bound. lia.
  - split; [apply Z.div_pos; lia | apply Z.div_lt_upper_bound; lia].
Qed.

Lemma utf8_octets (cp : Z) :
  0 <= cp < 1114112 -> Forall (fun b => 0 <= b < 256) (utf8 cp).
Proof.
  intros H. unfold utf8.
  pose proof (Z.mod_pos_bound cp 64 ltac:(lia)).
  pose proof (Z.mod_pos_bound (cp / 64) 64 ltac:(lia)).
  pose proof (Z.mod_pos_bound (cp / 4096) 64 ltac:(lia)).
  assert (0 <= cp / 64) by (apply Z.div_pos; lia).
  assert (0 <= cp / 4096) by (apply Z.div_pos; lia).
  assert (0 <= cp / 262144) by (apply Z.div_pos; lia).
  destruct (Z.ltb_spec cp 128); [repeat constructor; lia |].
  destruct (Z.ltb_spec cp 2048).
  { assert (cp / 64 < 32) by (apply Z.div_lt_upper_bound; lia).
    repeat constructor; lia. }
  destruct (Z.ltb_spec cp 65536).
  { assert (cp / 4096 < 16) by (apply Z.div_lt_upper_bound; lia).
    repeat constructor; lia. }
  assert (cp / 262144 < 5) by (apply Z.div_lt_upper_bound; lia).
  repeat constructor; lia.
Qed.

Lemma surrogate_bounds (c : Z) :
  (is_leading_surrogate c = true -> 55296 <= c <= 56319)
  /\ (is_trailing_surrogate c = true -> 56320 <= c <= 57343).
Proof.
  unfold is_leading_surrogate, is_trailing_surrogate.
  split; intros H; apply andb_true_iff in H as [H1 H2];
    apply Z.leb_le in H1, H2; lia.
Qed.

Lemma code_unit_bounds (c : Z) : is_code_unit c = true -> 0 <= c < 65536.
Proof.
  unfold is_code_unit. intros H. apply andb_true_iff in H as [H1 H2].
  apply Z.leb_le in H1. apply Z.ltb_lt in H2. lia.
Qed.

(** What [encodeURIComponent] returns is made of unreserved characters
    and "%" only. *)
Lemma encode_encoded (n : nat) :
  forall s r,
    (length s <= n)%nat -> forallb is_code_unit s = true ->
    encodeURIComponent s = Return r -> forallb is_encoded r = true.
Proof.
  induction n as [| n IH]; intros s r Hlen Hcu E.
  - destruct s; [| simpl in Hlen; lia]. injection E as <-. reflexivity.
  - destruct s as [| c t]; [injection E as <-; reflexivity |].
    simpl in Hlen, Hcu, E. apply andb_true_iff in Hcu as [Hc Ht].
    apply code_unit_bounds in Hc.
    destruct (unreserved c) eqn:Hu.
    { destruct (encodeURIComponent t) as [r' |] eqn:Et; [| discriminate].
      injection E as <-. simpl. unfold is_encoded at 1. rewrite Hu. simpl.
      apply (IH t); [lia | exact Ht | exact Et]. }
    destruct (is_trailing_surrogate c) eqn:Htr; [discriminate |].
    destruct (is_leading_surrogate c) eqn:Hld.
    + destruct t as [| d t']; [discriminate |].
      destruct (is_trailing_surrogate d) eqn:Hd; [| discriminate].
      destruct (encodeURIComponent t') as [r' |] eqn:Et; [| discriminate].
      injection E as <-. rewrite forallb_app.
      simpl in Ht. apply andb_true_iff in Ht as [_ Ht'].
      rewrite (IH t' r'); [| simpl in Hlen; lia | exact Ht' | exact Et].
      rewrite andb_true_r. apply escape_encoded, utf8_octets.
      apply surrogate_bounds in Hld, Hd. unfold pair_code_point. lia.
    + destruct (encodeURIComponent t) as [r' |] eqn:Et; [| discriminate].
      injection E as <-. rewrite forallb_app.
      rewrite (IH t r'); [| lia | exact Ht | exact Et].
      rewrite andb_true_r. apply escape_encoded, utf8_octets. lia.
Qed.

Lemma unreserved_not_surrogate (c : Z) :
  unreserved c = true ->
  is_trailing_surrogate c = false /\ is_leading_surrogate c = false.
Proof.
  intros H.
  destruct (is_trailing_surrogate c) eqn:Ht;
    [apply surrogate_bounds in Ht | ];
    (destruct (is_leading_surrogate c) eqn:Hl;
     [apply surrogate_bounds in Hl |]); auto; exfalso;
    unfold unreserved in H;
    repeat (apply orb_true_iff in H as [H | H]);
    try (apply andb_true_iff in H as [H1 H2]; apply Z.leb_le in H1, H2; lia);
    try (apply Z.eqb_eq in H; lia).
Qed.

(** [encodeURIComponent] returns exactly on the well-formed strings, and
    throws a URIError on the others. *)
Lemma encode_well_formed (n : nat) :
  forall s,
    (length s <= n)%nat ->
    if well_formed s then exists r, encodeURIComponent s = Return r
    else encodeURIComponent s = Raise URIError.
Proof.
  induction n as [| n IH]; intros s Hlen.
  - destruct s; [| simpl in Hlen; lia]. simpl. eauto.
  - destruct s as [| c t]; [simpl; eauto |].
    simpl in Hlen. cbn [well_formed encodeURIComponent].
    destruct (unreserved c) eqn:Hu.
    { destruct (unreserved_not_surrogate c Hu) as [-> ->].
      specialize (IH t ltac:(lia)).
      destruct (well_formed t).
      - destruct IH as [r ->]. simpl. eauto.
      - rewrite IH. reflexivity. }
    destruct (is_trailing_surrogate c); [reflexivity |].
    destruct (is_leading_surrogate c).
    + destruct t as [| d t']; [reflexivity |].
      destruct (is_trailing_surrogate d); [| reflexivity].
      specialize (IH t' ltac:(simpl in Hlen; lia)). cbn [andb].
      destruct (well_formed t').
      * destruct IH as [r ->]. simpl. eauto.
      * rewrite IH. reflexivity.
    + specialize (IH t ltac:(lia)).
      destruct (well_formed t).
      * destruct IH as [r ->]. simpl. eauto.
      * rewrite IH. reflexivity.
Qed.

(** A string of unreserved characters is encoded as itself. *)
Lemma encode_unreserved (s : jsstring) :
  forallb unreserved s = true -> encodeURIComponent s = Return s.
Proof.
  induction s as [| c t IH]; [reflexivity |].
  simpl. intros H. apply andb_true_iff in H as [-> Ht].
  rewrite IH by exact Ht. reflexivity.
Qed.

Lemma occurrences_app (c : Z) (a b : jsstring) :
  occurrences c (a ++ b) = (occurrences c a + occurrences c b)%nat.
Proof. unfold occurrences. rewrite List.filter_app, length_app. reflexivity. Qed.

Lemma occurrences_none (c : Z) (P : Z -> bool) (s : jsstring) :
  P c = false -> forallb P s = true -> occurrences c s = 0%nat.
Proof.
  intros Hc. unfold occurrences. induction s as [| x t IH]; [reflexivity |].
  simpl. intros H. apply andb_true_iff in H as [Hx Ht].
  destruct (Z.eqb_spec c x) as [<- | _]; [congruence | exact (IH Ht)].
Qed.

Lemma digit_unreserved (s : jsstring) :
  forallb is_digit s = true -> forallb unreserved s = true.
Proof.
  intros H. rewrite forallb_forall in *. intros x Hx.
  specialize (H x Hx). unfold is_digit in H. unfold unreserved.
  rewrite H. reflexivity.
Qed.

End Encode.

Section ClientFacts.

Context `{Engine}.

Lemma ToString_small (z : Z) : 1 <= z <= 25 -> ToString (of_Z z) = decimal z.
Proof.
  intros Hz.
  assert (Hall : forall m : nat, (m <= 25)%nat ->
            ToString (of_Z (Z.of_nat (S m))) = decimal (Z.of_nat (S m))).
  { intros m Hm.
    do 26 (destruct m as [| m]; [vm_compute; reflexivity |]). lia. }
  replace z with (Z.of_nat (S (Z.to_nat (z - 1)))) by lia.
  apply Hall. lia.
Qed.

Lemma frontend_clampK_range (k : number) :
  exists z, Frontend.clampK k = of_Z z /\ 1 <= z <= 25.
Proof.
  change (Frontend.clampK k) with (Api.clampK k). rewrite clampK_spec.
  destruct (isFinite k); eexists; split; try reflexivity; lia.
Qed.

Lemma trim_idempotent (s : jsstring) : trim (trim s) = trim s.
Proof.
  destruct (trim_decompose s) as [l [r [_ [_ [_ [H1 H2]]]]]].
  apply trim_id; assumption.
Qed.

Lemma search_url_value (qq eq : jsstring) (z : Z) :
  1 <= z <= 25 -> encodeURIComponent qq = Return eq ->
  App.search_url qq (of_Z z)
  = Return (str "/api/search?q=" ++ eq ++ str "&k=" ++ decimal z).
Proof.
  intros Hz Eq. unfold App.search_url, mbind, result_bind.
  rewrite Eq, (ToString_small z Hz).
  destruct (decimal_spec z ltac:(lia)) as [_ [Hd _]].
  rewrite (encode_unreserved _ (digit_unreserved _ Hd)). reflexivity.
Qed.

Lemma read_k_client (k : number) (request : Api.HttpRequest) :
  k_param request = VString (ToString (Frontend.clampK k)) ->
  Api.read_k request = Frontend.clampK k.
Proof.
  destruct (frontend_clampK_range k) as [z [Ek Hz]]. rewrite Ek.
  rewrite (ToString_small z Hz). intros Hk.
  destruct (decimal_spec z ltac:(lia)) as [Hne [Hd Hv]].
  rewrite (read_k_decimal request (decimal z) Hk Hne Hd) by lia.
  rewrite Hv. f_equal. lia.
Qed.

End ClientFacts.

(** X11. For a well-formed query, the URL [onSearch] builds is
    ["/api/search?q=" ++ eq ++ "&k=" ++ z], where [eq] is the encoded query
    and [z] the decimal digits of the clamped [k], an integer of [1, 25].
    Whatever the query holds, the URL has one "?", one "&", two "=" and
    no "#": the query string has the two parameters [q] and [k] and no
    other. *)
Theorem search_url_shape `{Engine} (qq : jsstring) (k : number) :
  forallb is_code_unit qq = true -> well_formed qq = true ->
  exists eq z url,
    App.search_url qq (Frontend.clampK k) = Return url
    /\ url = str "/api/search?q=" ++ eq ++ str "&k=" ++ decimal z
    /\ encodeURIComponent qq = Return eq
    /\ Frontend.clampK k = of_Z z /\ 1 <= z <= 25
    /\ occurrences 63 url = 1%nat /\ occurrences 38 url = 1%nat
    /\ occurrences 61 url = 2%nat /\ occurrences 35 url = 0%nat.
Proof.
  intros Hcu Hwf.
  pose proof (encode_well_formed (length qq) qq ltac:(lia)) as He.
  rewrite Hwf in He. destruct He as [eq Eq].
  pose proof (encode_encoded (length qq) qq eq ltac:(lia) Hcu Eq) as Henc.
  destruct (frontend_clampK_range k) as [z [Ek Hz]].
  destruct (decimal_spec z ltac:(lia)) as [_ [Hd _]].
  exists eq, z, (str "/api/search?q=" ++ eq ++ str "&k=" ++ decimal z).
  rewrite Ek. split; [apply search_url_value; assumption |].
  split; [reflexivity |]. split; [exact Eq |]. split; [reflexivity |].
  split; [exact Hz |].
  rewrite !occurrences_app.
  rewrite !(occurrences_none _ is_encoded eq) by (reflexivity || exact Henc).
  rewrite !(occurrences_none _ is_digit (decimal z))
    by (reflexivity || exact Hd).
  repeat split; reflexivity.
Qed.

Lemma search_url_shape_witness :
  exists eq z url,
    App.search_url (H := demo_engine) (str "a&k=99#x") (Frontend.clampK NaN)
    = Return url
    /\ url = str "/api/search?q=" ++ eq ++ str "&k=" ++ decimal z
    /\ occurrences 38 url = 1%nat.
Proof.
  destruct (search_url_shape (H := demo_engine) (str "a&k=99#x") NaN)
    as [eq [z [url [E [Eu [_ [_ [_ [_ [Ha _]]]]]]]]]];
    [reflexivity | reflexivity |].
  exists eq, z, url. repeat split; assumption.
Defined.

(** X12. Client and server agree on [k]: the text [String(clampK(k))] the
    client puts in the URL is made of digits, is not changed by
    [encodeURIComponent], and a request that carries it as [k] makes the
    handler compute the very [k] the client computed. *)
Theorem client_server_k `{Engine} (k : number) (request : Api.HttpRequest) :
  k_param request = VString (ToString (Frontend.clampK k)) ->
  Api.read_k request = Frontend.clampK k
  /\ forallb is_digit (ToString (Frontend.clampK k)) = true
  /\ encodeURIComponent (ToString (Frontend.clampK k))
     = Return (ToString (Frontend.clampK k)).
Proof.
  intros Hk. split; [apply read_k_client, Hk |].
  destruct (frontend_clampK_range k) as [z [Ek Hz]]. rewrite Ek.
  rewrite (ToString_small z Hz).
  destruct (decimal_spec z ltac:(lia)) as [_ [Hd _]].
  split; [exact Hd |].
  apply encode_unreserved, digit_unreserved, Hd.
Qed.

Lemma client_server_k_witness :
  Api.read_k
    {| Api.query :=
         [(str "k", ToString (H := demo_engine)
                      (Frontend.clampK (StringToNumber (str "1e9"))))] |}
  = Frontend.clampK (StringToNumber (str "1e9")).
Proof.
  apply (client_server_k (H := demo_engine) (StringToNumber (str "1e9"))).
  reflexivity.
Defined.

(** X13. The parameters the client sends are never refused: for a query
    that is not blank, a request whose [q] is the trimmed query and whose
    [k] is the text of the clamped [k] gets the 200 response, which echoes
    that [q] and that [k]. *)
Theorem client_request_accepted `{Engine}
    (st : App.State) (request : Api.HttpRequest) (c : Api.InvocationContext) :
  all_white (App.q st) = false ->
  q_param request = VString (trim (App.q st)) ->
  k_param request = VString (ToString (Frontend.clampK (App.k st))) ->
  Api.search request c
  = Normal (ok_response (trim (App.q st)) (Frontend.clampK (App.k st)) []).
Proof.
  intros Hw Hq Hk. rewrite search_spec, (q_text_string _ _ Hq).
  rewrite trim_idempotent.
  rewrite (read_k_client (App.k st) request Hk).
  f_equal. apply answer_ok. intros E. apply trim_nil_iff in E. congruence.
Qed.

Lemma client_request_accepted_witness :
  Api.search
    {| Api.query :=
         [(str "q", str "flight logs");
          (str "k", ToString (H := demo_engine) (Frontend.clampK NaN))] |} ctx
  = Normal (ok_response (str "flight logs") (of_Z 8) []).
Proof.
  apply (client_request_accepted (H := demo_engine)
           {| App.q := str "  flight logs "; App.k := NaN;
              App.loading := false; App.error := [];
              App.results := JArray [] |}); reflexivity.
Defined.

(** The conjuncts of the goal, one goal each. *)
Ltac conjuncts := repeat match goal with |- _ /\ _ => split end.

Section OnSearch.

Context `{Engine} `{App.Network}.

Lemma all_white_false_trim (s : jsstring) :
  all_white s = false -> exists a t, trim s = a :: t.
Proof.
  intros Hw. destruct (trim s) as [| a t] eqn:E; [| eauto].
  apply trim_nil_iff in E. congruence.
Qed.

Lemma onSearch_nonblank (st : App.State) :
  all_white (App.q st) = false ->
  App.onSearch st
  = match App.request_results (trim (App.q st)) (App.k st) with
    | (Return rs, urls) =>
        ({| App.q := App.q st; App.k := App.k st; App.loading := false;
            App.error := str ""; App.results := rs |}, urls)
    | (Raise e, urls) =>
        ({| App.q := App.q st; App.k := App.k st; App.loading := false;
            App.error := message_of e; App.results := JArray [] |}, urls)
    end.
Proof.
  intros Hw. unfold App.onSearch.
  destruct (trim (App.q st)) as [| a t] eqn:Et; [| reflexivity].
  apply trim_nil_iff in Et. congruence.
Qed.

Lemma request_results_urls (qq : jsstring) (k : number) :
  match App.search_url qq (Frontend.clampK k) with
  | Return url => (App.request_results qq k).2 = [url]
  | Raise e =>
      App.request_results qq k = (Raise e, [])
  end.
Proof.
  unfold App.request_results.
  destruct (App.search_url qq (Frontend.clampK k)); reflexivity.
Qed.

End OnSearch.

(** X14. [onSearch] does nothing for a blank query: the state is left as
    it is and nothing is fetched. The button is enabled ([canSearch])
    exactly when the query is not blank and no search is loading. *)
Theorem onSearch_blank `{Engine} `{App.Network} (st : App.State) :
  (all_white (App.q st) = true -> App.onSearch st = (st, []))
  /\ (App.canSearch st = true
      <-> all_white (App.q st) = false /\ App.loading st = false).
Proof.
  split.
  - intros Hw. unfold App.onSearch. rewrite (trim_white _ Hw). reflexivity.
  - unfold App.canSearch. rewrite andb_true_iff, negb_true_iff. split.
    + intros [Hl Hlo]. split; [| exact Hlo].
      destruct (all_white (App.q st)) eqn:Hw; [| reflexivity].
      rewrite (trim_white _ Hw) in Hl. discriminate.
    + intros [Hw Hlo]. split; [| exact Hlo].
      destruct (all_white_false_trim _ Hw) as [a [t ->]].
      apply Z.ltb_lt. simpl length. lia.
Qed.

Lemma onSearch_blank_witness :
  App.onSearch (H := demo_engine)
    (H0 := {| App.fetch := fun _ => Raise (OtherValue (str "offline")) |})
    {| App.q := str "   "; App.k := of_Z 8; App.loading := false;
       App.error := str "old"; App.results := JArray [JNull] |}
  = ({| App.q := str "   "; App.k := of_Z 8; App.loading := false;
        App.error := str "old"; App.results := JArray [JNull] |}, []).
Proof.
  apply (onSearch_blank (H := demo_engine)). reflexivity.
Defined.

(** X15. For a query that is not blank, once [onSearch] has settled:
    [loading] is false, [q] and [k] are as before, at most one URL was
    fetched and it is the search URL of the trimmed query and the clamped
    [k]; a state with an error message has no results. A query with a
    lone surrogate is never sent: nothing is fetched and the error
    shown is the message of the URIError that the engine throws. *)
Theorem onSearch_settles `{Engine} `{App.Network} (st : App.State) :
  all_white (App.q st) = false ->
  App.loading (App.onSearch st).1 = false
  /\ App.q (App.onSearch st).1 = App.q st
  /\ App.k (App.onSearch st).1 = App.k st
  /\ (length (App.onSearch st).2 <= 1)%nat
  /\ (forall url, In url (App.onSearch st).2 ->
        App.search_url (trim (App.q st)) (Frontend.clampK (App.k st))
        = Return url)
  /\ (App.error (App.onSearch st).1 <> [] ->
      App.results (App.onSearch st).1 = JArray [])
  /\ (well_formed (trim (App.q st)) = false ->
      (App.onSearch st).2 = []
      /\ App.error (App.onSearch st).1 = message_of URIError
      /\ App.results (App.onSearch st).1 = JArray []).
Proof.
  intros Hw. rewrite (onSearch_nonblank st Hw).
  pose proof (request_results_urls (trim (App.q st)) (App.k st)) as Hu.
  assert (Hwf : well_formed (trim (App.q st)) = false ->
                App.search_url (trim (App.q st)) (Frontend.clampK (App.k st))
                = Raise URIError).
  { intros Hf.
    pose proof (encode_well_formed _ (trim (App.q st)) (le_n _)) as He.
    rewrite Hf in He. unfold App.search_url, mbind, result_bind.
    rewrite He. reflexivity. }
  destruct (App.search_url (trim (App.q st)) (Frontend.clampK (App.k st)))
    as [url | e] eqn:Eurl.
  - assert (Hnwf : well_formed (trim (App.q st)) = false -> False)
      by (intros Hf; specialize (Hwf Hf); discriminate).
    assert (Hurl : forall url', In url' [url] -> Return url = Return url')
      by (intros url' [<- | []]; reflexivity).
    destruct (App.request_results (trim (App.q st)) (App.k st))
      as [[rs | e] urls]; simpl in Hu; subst urls; cbn [fst snd];
      cbn [App.loading App.q App.k App.error App.results];
      conjuncts; auto.
    + intros Hne. exfalso. apply Hne. reflexivity.
    + intros Hf. destruct (Hnwf Hf).
    + intros Hf. destruct (Hnwf Hf).
  - rewrite Hu. cbn [fst snd App.loading App.q App.k App.error App.results].
    conjuncts; auto.
    + intros url' [].
    + intros Hf. specialize (Hwf Hf). injection Hwf as ->. auto.
Qed.

Lemma onSearch_settles_witness :
  App.loading
    (App.onSearch (H := demo_engine)
       (H0 := {| App.fetch := fun _ => Raise (OtherValue (str "offline")) |})
       {| App.q := [55357]; App.k := of_Z 8; App.loading := false;
          App.error := []; App.results := JArray [] |}).1 = false
  /\ (App.onSearch (H := demo_engine)
        (H0 := {| App.fetch := fun _ => Raise (OtherValue (str "offline")) |})
        {| App.q := [55357]; App.k := of_Z 8; App.loading := false;
           App.error := []; App.results := JArray [] |}).2 = [].
Proof.
  split;
    apply (onSearch_settles (H := demo_engine)
             (H0 := {| App.fetch := fun _ => Raise (OtherValue (str "offline")) |})
             {| App.q := [55357]; App.k := of_Z 8; App.loading := false;
                App.error := []; App.results := JArray [] |});
    reflexivity.
Defined.

(** X16. Results come from a successful response only: when, for a query
    that is not blank, [onSearch] leaves results other than the empty
    list, the search URL was fetched, the response was [ok], its JSON body
    was an object, the results are its [results] property, and there is no
    error message. *)
Theorem onSearch_results_provenance `{Engine} `{App.Network} (st : App.State) :
  all_white (App.q st) = false ->
  App.results (App.onSearch st).1 <> JArray [] ->
  exists url r props,
    App.search_url (trim (App.q st)) (Frontend.clampK (App.k st)) = Return url
    /\ (App.onSearch st).2 = [url]
    /\ App.fetch url = Return r /\ App.ok r = true
    /\ App.json r = Return (JObject props)
    /\ Frontend.prop "results" props = Some (App.results (App.onSearch st).1)
    /\ App.error (App.onSearch st).1 = [].
Proof.
  intros Hw. rewrite (onSearch_nonblank st Hw). unfold App.request_results.
  destruct (App.search_url (trim (App.q st)) (Frontend.clampK (App.k st)))
    as [url | e]; [| intros Hr; destruct Hr; reflexivity].
  unfold mbind, result_bind.
  destruct (App.fetch url) as [r | e] eqn:Ef;
    [| intros Hr; destruct Hr; reflexivity].
  destruct (App.ok r) eqn:Eok; cbn [negb];
    [| intros Hr; destruct Hr; reflexivity].
  destruct (App.json r) as [data | e] eqn:Ej;
    [| intros Hr; destruct Hr; reflexivity].
  destruct data as [| s | n | items | props]; cbn [member];
    try (intros Hr; destruct Hr; reflexivity).
  unfold jor. destruct (Frontend.prop "results" props) as [v |] eqn:Ep;
    [| intros Hr; destruct Hr; reflexivity].
  destruct (jtruthy (Some v)); [| intros Hr; destruct Hr; reflexivity].
  cbn [fst snd App.results App.error]. intros _.
  exists url, r, props. conjuncts; auto.
Qed.

Lemma onSearch_results_provenance_witness :
  exists url r props,
    App.fetch
      (Network := {| App.fetch := fun _ =>
         Return {| App.ok := true; App.status := 200; App.statusText := str "OK";
                   App.text := Return (str "");
                   App.json := Return (JObject [("results"%string,
                                                 JArray [JNull])]) |} |})
      url = Return r
    /\ App.ok r = true
    /\ App.json r = Return (JObject props)
    /\ Frontend.prop "results" props = Some (JArray [JNull]).
Proof.
  destruct (onSearch_results_provenance (H := demo_engine)
              (H0 := {| App.fetch := fun _ =>
                 Return {| App.ok := true; App.status := 200;
                           App.statusText := str "OK";
                           App.text := Return (str "");
                           App.json := Return (JObject [("results"%string,
                                                         JArray [JNull])]) |} |})
              {| App.q := str "flight logs"; App.k := of_Z 8;
                 App.loading := false; App.error := [];
                 App.results := JArray [] |})
    as [url [r [props [_ [_ [Ef [Eok [Ej [Ep _]]]]]]]]];
    [reflexivity | vm_compute; discriminate |].
  exists url, r, props. conjuncts; auto.
Defined.

Section EncodeInjective.

Context {engine : Engine}.

Lemma hex_digit_inj (a b : Z) :
  0 <= a < 16 -> 0 <= b < 16 -> hex_digit a = hex_digit b -> a = b.
Proof.
  unfold hex_digit. intros Ha Hb.
  destruct (Z.ltb_spec a 10), (Z.ltb_spec b 10); lia.
Qed.

(** An octet is determined by its two hexadecimal digits. *)
Lemma octet_of_hex (a b : Z) :
  0 <= a < 256 -> 0 <= b < 256 ->
  hex_digit (a / 16) = hex_digit (b / 16) ->
  hex_digit (a mod 16) = hex_digit (b mod 16) -> a = b.
Proof.
  intros Ha Hb H1 H2.
  apply hex_digit_inj in H1;
    [| split; [apply Z.div_pos | apply Z.div_lt_upper_bound]; lia ..].
  apply hex_digit_inj in H2; [| apply Z.mod_pos_bound; lia ..].
  rewrite (Z.div_mod a 16), (Z.div_mod b 16) by lia. congruence.
Qed.

Lemma escape_group_inj (a b a' b' : Z) (r r' : jsstring) :
  37 :: a :: b :: r = 37 :: a' :: b' :: r' -> a = a' /\ b = b' /\ r = r'.
Proof. intros [= -> -> ->]. auto. Qed.

(** The escapes of two code points in front of two strings: when the
    results are equal, so are the code points and the strings. *)
Lemma escape_utf8_inj (cp1 cp2 : Z) (r1 r2 : jsstring) :
  0 <= cp1 < 1114112 -> 0 <= cp2 < 1114112 ->
  escape (utf8 cp1) ++ r1 = escape (utf8 cp2) ++ r2 ->
  cp1 = cp2 /\ r1 = r2.
Proof.
  intros H1 H2.
  pose proof (utf8_octets cp1 H1) as O1.
  pose proof (utf8_octets cp2 H2) as O2.
  pose proof (Z.div_mod cp1 64 ltac:(lia)).
  pose proof (Z.div_mod cp2 64 ltac:(lia)).
  pose proof (Z.div_mod (cp1 / 64) 64 ltac:(lia)).
  pose proof (Z.div_mod (cp2 / 64) 64 ltac:(lia)).
  pose proof (Z.div_mod (cp1 / 4096) 64 ltac:(lia)).
  pose proof (Z.div_mod (cp2 / 4096) 64 ltac:(lia)).
  assert (D1 : cp1 / 64 / 64 = cp1 / 4096) by (rewrite Z.div_div by lia; reflexivity).
  assert (D2 : cp2 / 64 / 64 = cp2 / 4096) by (rewrite Z.div_div by lia; reflexivity).
  assert (D3 : cp1 / 4096 / 64 = cp1 / 262144) by (rewrite Z.div_div by lia; reflexivity).
  assert (D4 : cp2 / 4096 / 64 = cp2 / 262144) by (rewrite Z.div_div by lia; reflexivity).
  pose proof (Z.mod_pos_bound cp1 64 ltac:(lia)).
  pose proof (Z.mod_pos_bound cp2 64 ltac:(lia)).
  pose proof (Z.mod_pos_bound (cp1 / 64) 64 ltac:(lia)).
  pose proof (Z.mod_pos_bound (cp2 / 64) 64 ltac:(lia)).
  pose proof (Z.mod_pos_bound (cp1 / 4096) 64 ltac:(lia)).
  pose proof (Z.mod_pos_bound (cp2 / 4096) 64 ltac:(lia)).
  assert (0 <= cp1 / 64 /\ 0 <= cp2 / 64 /\ 0 <= cp1 / 4096
          /\ 0 <= cp2 / 4096 /\ 0 <= cp1 / 262144 /\ 0 <= cp2 / 262144)
    by (repeat split; apply Z.div_pos; lia).
  unfold utf8 in *. revert O1 O2.
  destruct (Z.ltb_spec cp1 128); [| destruct (Z.ltb_spec cp1 2048);
    [| destruct (Z.ltb_spec cp1 65536)]];
    (destruct (Z.ltb_spec cp2 128); [| destruct (Z.ltb_spec cp2 2048);
       [| destruct (Z.ltb_spec cp2 65536)]]);
    unfold escape; cbn [map concat app]; intros O1 O2 E;
    repeat match goal with
           | Hf : Forall _ (_ :: _) |- _ => inversion Hf; subst; clear Hf
           end;
    repeat match goal with
           | E0 : 37 :: hex_digit (?x / 16) :: _ :: _
                  = 37 :: hex_digit (?y / 16) :: _ :: _ |- _ =>
               let Ea := fresh "Ea" in
               let Eb := fresh "Eb" in
               let Er := fresh "Er" in
               let Hx := fresh "Hx" in
               let Hy := fresh "Hy" in
               pose proof (escape_group_inj _ _ _ _ _ _ E0) as [Ea [Eb Er]];
               clear E0;
               assert (Hx : 0 <= x < 256) by assumption;
               assert (Hy : 0 <= y < 256) by assumption;
               pose proof (octet_of_hex x y Hx Hy Ea Eb);
               clear Ea Eb Hx Hy
           end;
    try lia; try (split; [lia | assumption]).
Qed.

Lemma escape_utf8_head (cp : Z) (r : jsstring) :
  exists a b rest, escape (utf8 cp) ++ r = 37 :: a :: b :: rest.
Proof.
  unfold utf8, escape.
  destruct (cp <? 128); [| destruct (cp <? 2048); [| destruct (cp <? 65536)]];
    cbn [map concat app]; eauto.
Qed.

(** The three ways [encodeURIComponent] consumes the head of a string. *)
Lemma encode_cons (c : Z) (t r : jsstring) :
  encodeURIComponent (c :: t) = Return r ->
  (unreserved c = true
   /\ exists r', encodeURIComponent t = Return r' /\ r = c :: r')
  \/ (unreserved c = false /\ is_leading_surrogate c = false
      /\ is_trailing_surrogate c = false
      /\ exists r', encodeURIComponent t = Return r'
                    /\ r = escape (utf8 c) ++ r')
  \/ (unreserved c = false /\ is_leading_surrogate c = true
      /\ exists d t' r',
           t = d :: t' /\ is_trailing_surrogate d = true
           /\ encodeURIComponent t' = Return r'
           /\ r = escape (utf8 (pair_code_point c d)) ++ r').
Proof.
  cbn [encodeURIComponent]. unfold mbind, result_bind.
  destruct (unreserved c) eqn:Hu.
  { destruct (encodeURIComponent t) as [r' |] eqn:Et; [| discriminate].
    intros [= <-]. left. eauto. }
  destruct (is_trailing_surrogate c) eqn:Ht; [discriminate |].
  destruct (is_leading_surrogate c) eqn:Hl.
  - destruct t as [| d t']; [discriminate |].
    destruct (is_trailing_surrogate d) eqn:Hd; [| discriminate].
    destruct (encodeURIComponent t') as [r' |] eqn:Et; [| discriminate].
    intros [= <-]. right. right. conjuncts; auto. exists d, t', r'. auto.
  - destruct (encodeURIComponent t) as [r' |] eqn:Et; [| discriminate].
    intros [= <-]. right. left. conjuncts; eauto.
Qed.

(** [encodeURIComponent] loses nothing: two strings with one encoding are
    equal. *)
Lemma encode_inj (n : nat) :
  forall s1 s2 r,
    (length s1 <= n)%nat ->
    forallb is_code_unit s1 = true -> forallb is_code_unit s2 = true ->
    encodeURIComponent s1 = Return r -> encodeURIComponent s2 = Return r ->
    s1 = s2.
Proof.
  induction n as [| n IH]; intros s1 s2 r Hlen Hc1 Hc2 E1 E2.
  - destruct s1; [| simpl in Hlen; lia]. injection E1 as <-.
    destruct s2 as [| c t]; [reflexivity |].
    apply encode_cons in E2
      as [[_ [r' [_ E]]] | [[_ [_ [_ [r' [_ E]]]]] | [_ [_ [d [t' [r' [_ [_ [_ E]]]]]]]]]];
      [discriminate | |];
      match type of E with
      | _ = escape (utf8 ?cp) ++ ?r =>
          destruct (escape_utf8_head cp r) as [a [b [rest Hh]]];
          rewrite Hh in E; discriminate
      end.
  - destruct s1 as [| c1 t1].
    { injection E1 as <-. destruct s2 as [| c t]; [reflexivity |].
      apply encode_cons in E2
        as [[_ [r' [_ E]]] | [[_ [_ [_ [r' [_ E]]]]] | [_ [_ [d [t' [r' [_ [_ [_ E]]]]]]]]]];
        [discriminate | |];
        match type of E with
        | _ = escape (utf8 ?cp) ++ ?r =>
            destruct (escape_utf8_head cp r) as [a [b [rest Hh]]];
            rewrite Hh in E; discriminate
        end. }
    destruct s2 as [| c2 t2].
    { injection E2 as <-.
      apply encode_cons in E1
        as [[_ [r' [_ E]]] | [[_ [_ [_ [r' [_ E]]]]] | [_ [_ [d [t' [r' [_ [_ [_ E]]]]]]]]]];
        [discriminate | |];
        match type of E with
        | _ = escape (utf8 ?cp) ++ ?r =>
            destruct (escape_utf8_head cp r) as [a [b [rest Hh]]];
            rewrite Hh in E; discriminate
        end. }
    simpl in Hlen, Hc1, Hc2.
    apply andb_true_iff in Hc1 as [Hu1 Hc1].
    apply andb_true_iff in Hc2 as [Hu2 Hc2].
    apply code_unit_bounds in Hu1, Hu2.
    apply encode_cons in E1
      as [[U1 [r1 [T1 R1]]] | [[U1 [L1 [Tr1 [r1 [T1 R1]]]]]
                               | [U1 [L1 [d1 [t1' [r1 [Et1 [Hd1 [T1 R1]]]]]]]]]];
      apply encode_cons in E2
        as [[U2 [r2 [T2 R2]]] | [[U2 [L2 [Tr2 [r2 [T2 R2]]]]]
                                 | [U2 [L2 [d2 [t2' [r2 [Et2 [Hd2 [T2 R2]]]]]]]]]];
      rewrite R1 in R2; clear R1.
    + injection R2 as Ec Er. subst c2 r2. f_equal.
      eapply IH; [| | | exact T1 | exact T2]; [lia | assumption ..].
    + destruct (escape_utf8_head c2 r2) as [a [b [rest Hh]]].
      rewrite Hh in R2. injection R2 as Ec _. subst c1. discriminate.
    + destruct (escape_utf8_head (pair_code_point c2 d2) r2) as [a [b [rest Hh]]].
      rewrite Hh in R2. injection R2 as Ec _. subst c1. discriminate.
    + destruct (escape_utf8_head c1 r1) as [a [b [rest Hh]]].
      rewrite Hh in R2. injection R2 as Ec _. subst c2. discriminate.
    + apply escape_utf8_inj in R2 as [Ec Er]; try lia. subst c2 r2.
      f_equal. eapply IH; [| | | exact T1 | exact T2]; [lia | assumption ..].
    + subst t2. simpl in Hc2. apply andb_true_iff in Hc2 as [Hud2 Hc2].
      apply surrogate_bounds in L2, Hd2.
      apply escape_utf8_inj in R2 as [Ecp _];
        unfold pair_code_point in *; lia.
    + destruct (escape_utf8_head (pair_code_point c1 d1) r1) as [a [b [rest Hh]]].
      rewrite Hh in R2. injection R2 as Ec _. subst c2. discriminate.
    + subst t1. simpl in Hc1. apply andb_true_iff in Hc1 as [Hud1 Hc1].
      apply surrogate_bounds in L1, Hd1.
      apply escape_utf8_inj in R2 as [Ecp _];
        unfold pair_code_point in *; lia.
    + subst t1 t2. simpl in Hc1, Hc2, Hlen.
      apply andb_true_iff in Hc1 as [_ Hc1].
      apply andb_true_iff in Hc2 as [_ Hc2].
      apply surrogate_bounds in L1, Hd1, L2, Hd2.
      apply escape_utf8_inj in R2 as [Ecp Er];
        [| unfold pair_code_point; lia ..].
      assert (c1 = c2 /\ d1 = d2) as [Ec Ed]
        by (unfold pair_code_point in Ecp; lia).
      subst c2 d2 r2. do 2 f_equal.
      eapply IH; [| | | exact T1 | exact T2]; [lia | assumption ..].
Qed.

Lemma app_sep_inj (c : Z) (a a' b b' : jsstring) :
  ~ In c a -> ~ In c a' -> a ++ c :: b = a' ++ c :: b' -> a = a' /\ b = b'.
Proof.
  revert a'. induction a as [| x a IH]; intros [| y a'] Ha Ha' E;
    simpl in *.
  - injection E as ->. auto.
  - injection E as <- _. tauto.
  - injection E as -> _. tauto.
  - injection E as -> E. destruct (IH a') as [-> ->]; auto.
Qed.

Lemma encoded_no_ampersand (s : jsstring) :
  forallb is_encoded s = true -> ~ In 38 s.
Proof.
  intros H Hin. rewrite forallb_forall in H. apply H in Hin. discriminate.
Qed.

End EncodeInjective.

(** X17. The URL of [onSearch] determines the search: two queries, with
    their [k], whose URLs are equal are the same query and have the same
    clamped [k]; nothing of the query is lost or confused with [k]. *)
Theorem search_url_injective `{Engine}
    (qq1 qq2 : jsstring) (k1 k2 : number) (url : jsstring) :
  forallb is_code_unit qq1 = true -> forallb is_code_unit qq2 = true ->
  App.search_url qq1 (Frontend.clampK k1) = Return url ->
  App.search_url qq2 (Frontend.clampK k2) = Return url ->
  qq1 = qq2 /\ Frontend.clampK k1 = Frontend.clampK k2.
Proof.
  intros Hc1 Hc2 E1 E2.
  destruct (frontend_clampK_range k1) as [z1 [Ek1 Hz1]].
  destruct (frontend_clampK_range k2) as [z2 [Ek2 Hz2]].
  rewrite Ek1 in *. rewrite Ek2 in *.
  destruct (encodeURIComponent qq1) as [eq1 | e] eqn:Eq1;
    [| unfold App.search_url, mbind, result_bind in E1;
       rewrite Eq1 in E1; discriminate].
  destruct (encodeURIComponent qq2) as [eq2 | e] eqn:Eq2;
    [| unfold App.search_url, mbind, result_bind in E2;
       rewrite Eq2 in E2; discriminate].
  rewrite (search_url_value qq1 eq1 z1 Hz1 Eq1) in E1.
  rewrite (search_url_value qq2 eq2 z2 Hz2 Eq2) in E2.
  rewrite <- E1 in E2. clear E1.
  assert (E : eq2 ++ 38 :: str "k=" ++ decimal z2
              = eq1 ++ 38 :: str "k=" ++ decimal z1).
  { injection E2 as E2. exact E2. }
  pose proof (encode_encoded _ qq1 eq1 (le_n _) Hc1 Eq1) as En1.
  pose proof (encode_encoded _ qq2 eq2 (le_n _) Hc2 Eq2) as En2.
  apply app_sep_inj in E as [Eeq E];
    [| apply encoded_no_ampersand; assumption ..].
  subst eq2. apply app_inv_head in E.
  assert (Hz : z2 = z1).
  { destruct (decimal_spec z1 ltac:(lia)) as [_ [_ <-]].
    destruct (decimal_spec z2 ltac:(lia)) as [_ [_ <-]].
    rewrite E. reflexivity. }
  subst z2. split; [| reflexivity].
  apply (encode_inj _ qq1 qq2 eq1 (le_n _)); assumption.
Qed.

Lemma search_url_injective_witness :
  str "a b" = str "a b" /\ Frontend.clampK (of_Z 200) = Frontend.clampK (of_Z 25).
Proof.
  apply (search_url_injective (H := demo_engine) (str "a b") (str "a b")
           (of_Z 200) (of_Z 25) (str "/api/search?q=a%20b&k=25"));
    reflexivity.
Defined.

(** X18. The [k] input: whatever text is typed, the search uses an
    integer of [1, 25]. A blank text is the Number 0, shown as "0", and
    the search uses 1, not the default 8; a text that is no numeric
    literal is NaN, shown as "NaN", and the search uses 8. *)
Theorem k_field_edges `{Engine} (text : jsstring) (st : App.State) :
  (exists z, Frontend.clampK (App.k (App.onChangeK text st)) = of_Z z
             /\ 1 <= z <= 25)
  /\ (all_white text = true ->
      App.kValue (App.onChangeK text st) = str "0"
      /\ Frontend.clampK (App.k (App.onChangeK text st)) = of_Z 1)
  /\ (StringToNumber text = NaN ->
      App.kValue (App.onChangeK text st) = str "NaN"
      /\ Frontend.clampK (App.k (App.onChangeK text st)) = of_Z 8).
Proof.
  split; [apply frontend_clampK_range |].
  unfold App.kValue, App.onChangeK. cbn [App.k Number]. split.
  - intros Hw. unfold StringToNumber. rewrite (trim_white _ Hw).
    split; reflexivity.
  - intros ->. split; reflexivity.
Qed.

Lemma k_field_edges_witness :
  Frontend.clampK (App.k (App.onChangeK (str " ") App.initial)) = of_Z 1
  /\ Frontend.clampK (App.k (App.onChangeK (str "ten") App.initial)) = of_Z 8.
Proof.
  split.
  - apply (k_field_edges (H := demo_engine) (str " ") App.initial). reflexivity.
  - apply (k_field_edges (H := demo_engine) (str "ten") App.initial).
    reflexivity.
Defined.
